(** * nlq-frontend: the query/session store, the result-shaping layer,
      the HTTP error adapter and the chat submission handler

    A shallow embedding of the JavaScript sources

      - [store/nlqStore.js]           (the zustand store and its actions),
      - [components/QueryResult.jsx]  (column classification, cell formatting,
                                       chart projections),
      - [services/api.js]             (the axios response interceptor),
      - [components/ChatInterface.jsx] ([handleSubmit]),

    together with the part of the JavaScript platform these functions call:
    values, property access, [typeof], [===], [Number], [String],
    binary64 arithmetic, [Number.prototype.toString],
    [Number.prototype.toLocaleString] for [en-US], [JSON.stringify] with a
    two-space indent and [JSON.parse].

    Conventions of the model.
      - A JavaScript string is a [string] of 8-bit code units (ASCII text and
        UTF-8 bytes); [toLowerCase] maps the ASCII letters.
      - A JavaScript number is a binary64 value [number]: sign, positive
        integer mantissa and binary exponent, with the two zeros, the two
        infinities and NaN. Arithmetic rounds to nearest, ties to even.
      - A JavaScript object is an association list in own-property order
        (array-index keys first, in ascending order, then the other keys in
        insertion order).
      - Wall-clock reads ([Date.now()], [new Date().toISOString()]) are
        arguments of the functions that perform them. *)

From Stdlib Require Import ZArith List String Ascii Bool Lia Arith.
Import ListNotations.

Local Open Scope string_scope.
Local Open Scope Z_scope.

(* ===================================================================== *)
(** * Strings *)
(* ===================================================================== *)

Module Str.

Definition dquote : ascii := ascii_of_nat 34.
Definition backslash : ascii := ascii_of_nat 92.

Definition code (c : ascii) : Z := Z.of_nat (nat_of_ascii c).
Definition chr (z : Z) : ascii := ascii_of_nat (Z.to_nat z).

Definition is_digit (c : ascii) : bool := (48 <=? code c) && (code c <=? 57).
Definition digit_val (c : ascii) : Z := code c - 48.
Definition digit_char (d : Z) : ascii := chr (48 + d).

(** [c.toLowerCase()] on one code unit. *)
Definition lower (c : ascii) : ascii :=
  if (65 <=? code c) && (code c <=? 90) then chr (code c + 32) else c.


(** [s.startsWith(p)]. *)
Fixpoint startsWith (p s : string) : bool :=
  match p, s with
  | EmptyString, _ => true
  | String a p', String b s' => Ascii.eqb a b && startsWith p' s'
  | String _ _, EmptyString => false
  end.


Fixpoint rev_acc (s acc : string) : string :=
  match s with
  | EmptyString => acc
  | String c r => rev_acc r (String c acc)
  end.

Definition rev (s : string) : string := rev_acc s EmptyString.

Definition len (s : string) : Z := Z.of_nat (String.length s).

(** [c.repeat(n)]. *)
Fixpoint repeat (c : ascii) (n : nat) : string :=
  match n with
  | O => EmptyString
  | S k => String c (repeat c k)
  end.

(** The first [n] code units of [s], and the rest. *)
Fixpoint take (n : nat) (s : string) : string :=
  match n, s with
  | S k, String c r => String c (take k r)
  | _, _ => EmptyString
  end.

Fixpoint drop (n : nat) (s : string) : string :=
  match n, s with
  | S k, String _ r => drop k r
  | _, _ => s
  end.

(** The longest prefix of decimal digits, and what follows it. *)
Fixpoint span_digits (s : string) : string * string :=
  match s with
  | String c r =>
      if is_digit c then let '(d, t) := span_digits r in (String c d, t)
      else (EmptyString, s)
  | EmptyString => (EmptyString, EmptyString)
  end.

(** Every code unit of [s] passes the test [f]. *)
Fixpoint all (f : ascii -> bool) (s : string) : bool :=
  match s with
  | EmptyString => true
  | String c r => f c && all f r
  end.

(** The text does not go on with a digit. *)
Definition no_digit_ahead (s : string) : bool :=
  match s with
  | EmptyString => true
  | String c _ => negb (is_digit c)
  end.

(** The value of a string of decimal digits, most significant first. *)
Fixpoint val_acc (acc : Z) (s : string) : Z :=
  match s with
  | EmptyString => acc
  | String c r => val_acc (10 * acc + digit_val c) r
  end.

Definition val (s : string) : Z := val_acc 0 s.

(** The decimal digits of a non-negative integer, without leading zeros
    (["0"] for zero). *)
Fixpoint digits_fuel (fuel : nat) (z : Z) (acc : string) : string :=
  match fuel with
  | O => acc
  | S f =>
      let acc' := String (digit_char (z mod 10)) acc in
      if z <? 10 then acc' else digits_fuel f (z / 10) acc'
  end.

Definition digits (z : Z) : string :=
  digits_fuel (S (Z.to_nat (Z.log2 z))) z EmptyString.

(** A signed integer in decimal, as [String(z)] prints an integral number. *)
Definition of_Z (z : Z) : string :=
  if z <? 0 then String "-" (digits (- z)) else digits z.

(** [StrWhiteSpaceChar] within ASCII: TAB, LF, VT, FF, CR, SP. *)
Definition is_space (c : ascii) : bool :=
  ((9 <=? code c) && (code c <=? 13)) || (code c =? 32).

Fixpoint trimStart (s : string) : string :=
  match s with
  | String c r => if is_space c then trimStart r else s
  | EmptyString => EmptyString
  end.

(** [s.trim()]. *)
Definition trim (s : string) : string := rev (trimStart (rev (trimStart s))).

End Str.

(* ===================================================================== *)
(** * Numbers: IEEE 754 binary64 *)
(* ===================================================================== *)

Module Num.

(** A binary64 value. [Fin neg m e] is [(-1)^neg * m * 2^e]. *)
Inductive number : Set :=
| NaN
| Inf (neg : bool)
| Zero (neg : bool)
| Fin (neg : bool) (m : positive) (e : Z).

(** The representation the operations produce: a 53-bit mantissa, normal
    ([2^52 <= m]) unless the exponent is the least one. *)
Definition canonical (x : number) : bool :=
  match x with
  | Fin _ m e =>
      (Zpos m <? 2 ^ 53) && (-1074 <=? e) && (e <=? 971) &&
      ((2 ^ 52 <=? Zpos m) || (e =? -1074))
  | _ => true
  end.

(** Same value, the two zeros and NaN told apart from everything else
    ([Object.is]). *)
Definition same (x y : number) : bool :=
  match x, y with
  | NaN, NaN => true
  | Inf s, Inf t => Bool.eqb s t
  | Zero s, Zero t => Bool.eqb s t
  | Fin s m e, Fin t m' e' => Bool.eqb s t && Pos.eqb m m' && Z.eqb e e'
  | _, _ => false
  end.

(** [x === y] on numbers: NaN differs from itself, the zeros are equal. *)
Definition eqb (x y : number) : bool :=
  match x, y with
  | NaN, _ | _, NaN => false
  | Zero _, Zero _ => true
  | _, _ => same x y
  end.

Definition isNaN (x : number) : bool :=
  match x with NaN => true | _ => false end.

Definition isFinite (x : number) : bool :=
  match x with NaN | Inf _ => false | _ => true end.

Definition pow2 (k : Z) : Z := 2 ^ Z.max 0 k.
Definition pow10 (k : Z) : Z := 10 ^ Z.max 0 k.

(** [floor (log2 (n / d))] for positive [n] and [d]. *)
Definition ilog2Q (n d : Z) : Z :=
  let a := Z.log2 n - Z.log2 d in
  if d * pow2 a <=? n * pow2 (- a) then a else a - 1.

(** [2^j <= n / d]. *)
Definition ge_pow2 (n d j : Z) : Prop := d * pow2 j <= n * pow2 (- j).

(** The integer nearest to [n / d], ties to the even one. *)
Definition roundRNE (n d : Z) : Z :=
  let q := n / d in
  match (2 * (n mod d) ?= d) with
  | Lt => q
  | Gt => q + 1
  | Eq => if Z.even q then q else q + 1
  end.

(** The binary64 value nearest to [(-1)^neg * n / d] ([0 <= n], [0 < d]),
    ties to even; beyond the largest finite value it is an infinity. *)
Definition round64 (neg : bool) (n d : Z) : number :=
  if n <=? 0 then Zero neg
  else
    let e := Z.max (-1074) (ilog2Q n d - 52) in
    let m := roundRNE (n * pow2 (- e)) (d * pow2 e) in
    let e' := if m =? 2 ^ 53 then e + 1 else e in
    let m' := if m =? 2 ^ 53 then 2 ^ 52 else m in
    if m' <=? 0 then Zero neg
    else if 971 <? e' then Inf neg
    else Fin neg (Z.to_pos m') e'.

(** An integer as a number ([Date.now()], array lengths, literals). *)
Definition of_Z (z : Z) : number :=
  if z =? 0 then Zero false else round64 (z <? 0) (Z.abs z) 1.

(** The number a decimal literal [M * 10^P] denotes. A literal beyond every
    finite double, or below half the least one, needs no big power. *)
Definition ofDecimal (neg : bool) (M P : Z) : number :=
  if M <=? 0 then Zero neg
  else if 400 <? P then Inf neg
  else if P <? - (401 + Z.log2 M) then Zero neg
  else if 0 <=? P then round64 neg (M * 10 ^ P) 1
  else round64 neg M (10 ^ (- P)).

(** [x] with the sign [neg]. *)
Definition with_sign (neg : bool) (x : number) : number :=
  match x with
  | NaN => NaN
  | Inf _ => Inf neg
  | Zero _ => Zero neg
  | Fin _ m e => Fin neg m e
  end.

Definition opp (x : number) : number :=
  match x with
  | NaN => NaN
  | Inf s => Inf (negb s)
  | Zero s => Zero (negb s)
  | Fin s m e => Fin (negb s) m e
  end.





(** ** Number to string *)

(** [x] as a fraction [(n, d)], for a positive finite [x = m * 2^e]. *)
Definition numer (m : positive) (e : Z) : Z := Zpos m * pow2 e.
Definition denom (e : Z) : Z := pow2 (- e).

(** The [n] with [10^(n-1) <= num/den < 10^n]. *)
Fixpoint exp10_below (fuel : nat) (j : Z) (num den : Z) : Z :=
  match fuel with
  | O => 1 - j
  | S f => if den <=? num * 10 ^ j then 1 - j
           else exp10_below f (j + 1) num den
  end.

Definition exp10 (num den : Z) : Z :=
  if den <=? num then Str.len (Str.digits (num / den))
  else exp10_below 400 1 num den.

(** Trailing zeros of the digit string move into the exponent. *)
Fixpoint normalise (fuel : nat) (s p : Z) : Z * Z :=
  match fuel with
  | O => (s, p)
  | S f => if (0 <? s) && (s mod 10 =? 0) then normalise f (s / 10) (p + 1)
           else (s, p)
  end.

(** [s * 10^p] is a decimal of the double [x]: it rounds to [x]. *)
Definition represents (x : number) (sp : Z * Z) : bool :=
  (0 <? fst sp) && same (ofDecimal false (fst sp) (snd sp)) x.

(** The shortest decimal [s * 10^p] that rounds to [x = num/den], the
    closest to [x] when two of that length do, the even one on a tie:
    the [n], [k], [s] of Number::toString, with [p = n - k]. *)
Fixpoint shortest (fuel : nat) (k : Z) (x : number) (num den n : Z)
  : option (Z * Z) :=
  match fuel with
  | O => None
  | S f =>
      let p := n - k in
      let lo := (num * pow10 (- p)) / (den * pow10 p) in
      let clo := normalise 400 lo p in
      let chi := normalise 400 (lo + 1) p in
      match represents x clo, represents x chi with
      | true, true =>
          match (2 * num * pow10 (- p) ?= (2 * lo + 1) * den * pow10 p) with
          | Lt => Some clo
          | Gt => Some chi
          | Eq => if Z.even lo then Some clo else Some chi
          end
      | true, false => Some clo
      | false, true => Some chi
      | false, false => shortest f (k + 1) x num den n
      end
  end.

(** The digits [ds] of [s] laid out for the decimal exponent [n]
    ([s * 10^(n - k)], [k] the number of digits), as Number::toString
    does. *)
Definition layout (ds : string) (n : Z) : string :=
  let k := Str.len ds in
  if (k <=? n) && (n <=? 21) then
    ds ++ Str.repeat "0" (Z.to_nat (n - k))
  else if (0 <? n) && (n <=? 21) then
    Str.take (Z.to_nat n) ds ++ "." ++ Str.drop (Z.to_nat n) ds
  else if (-6 <? n) && (n <=? 0) then
    "0." ++ Str.repeat "0" (Z.to_nat (- n)) ++ ds
  else
    let ex := (if n - 1 <? 0 then "-" else "+") ++ Str.digits (Z.abs (n - 1)) in
    match ds with
    | String c EmptyString => String c ("e" ++ ex)
    | String c r => String c ("." ++ r ++ "e" ++ ex)
    | EmptyString => EmptyString
    end.

(** The exact decimal expansion of [m * 2^e]. *)
Definition exact_decimal (m : positive) (e : Z) : Z * Z :=
  if 0 <=? e then (Zpos m * 2 ^ e, 0) else (Zpos m * 5 ^ (- e), e).

(** The decimal [(s, p)] Number::toString prints for a positive finite
    double: the shortest one that rounds to it. Seventeen digits always
    separate a double from its neighbours; the exact expansion, which
    rounds to the double as well, closes the definition without that
    fact. *)
Definition decimal_of (m : positive) (e : Z) : Z * Z :=
  let num := numer m e in
  let den := denom e in
  match shortest 17 1 (Fin false m e) num den (exp10 num den) with
  | Some sp => sp
  | None => exact_decimal m e
  end.

Definition print_decimal (sp : Z * Z) : string :=
  let ds := Str.digits (fst sp) in
  layout ds (snd sp + Str.len ds).

(** [String(x)], [x.toString()], and the number in a template literal. *)
Definition toString (x : number) : string :=
  match x with
  | NaN => "NaN"
  | Inf s => if s then "-Infinity" else "Infinity"
  | Zero _ => "0"
  | Fin s m e => (if s then "-" else "") ++ print_decimal (decimal_of m e)
  end.

(** ** String to number *)

Definition is_exp_mark (c : ascii) : bool :=
  Ascii.eqb c "e" || Ascii.eqb c "E".

(** [ExponentPart] after its [e]: an optional sign and digits; the value
    and what follows. *)
Definition parse_exponent (s : string) : option (Z * string) :=
  let '(neg, s1) :=
    match s with
    | String "+" r => (false, r)
    | String "-" r => (true, r)
    | _ => (false, s)
    end in
  let '(ds, rest) := Str.span_digits s1 in
  match ds with
  | EmptyString => None
  | _ => Some (if neg then - Str.val ds else Str.val ds, rest)
  end.

(** An optional [ExponentPart] that ends the literal, added to [P0]. *)
Definition parse_exponent_opt (P0 : Z) (s : string) : option Z :=
  match s with
  | EmptyString => Some P0
  | String c r =>
      if is_exp_mark c then
        match parse_exponent r with
        | Some (x, EmptyString) => Some (P0 + x)
        | _ => None
        end
      else None
  end.

(** [StrUnsignedDecimalLiteral] without [Infinity]: digits with an optional
    fraction and exponent, as mantissa and decimal exponent. *)
Definition parse_decimal (s : string) : option (Z * Z) :=
  let '(ip, s1) := Str.span_digits s in
  let '(fp, s2) :=
    match s1 with
    | String "." r => Str.span_digits r
    | _ => (EmptyString, s1)
    end in
  match ip ++ fp with
  | EmptyString => None
  | ds =>
      match parse_exponent_opt (- Str.len fp) s2 with
      | Some P => Some (Str.val ds, P)
      | None => None
      end
  end.

(** The value of a digit in a base up to sixteen. *)
Definition hex_val (c : ascii) : option Z :=
  let n := Str.code c in
  if (48 <=? n) && (n <=? 57) then Some (n - 48)
  else if (97 <=? n) && (n <=? 102) then Some (n - 87)
  else if (65 <=? n) && (n <=? 70) then Some (n - 55)
  else None.

Fixpoint val_base (b acc : Z) (s : string) : option Z :=
  match s with
  | EmptyString => Some acc
  | String c r =>
      match hex_val c with
      | Some v => if v <? b then val_base b (b * acc + v) r else None
      | None => None
      end
  end.

(** [NonDecimalIntegerLiteral]: [0x], [0o], [0b] and at least one digit. *)
Definition parse_radix (s : string) : option Z :=
  match s with
  | String "0" (String c (String d r)) =>
      let b := if Ascii.eqb (Str.lower c) "x" then 16
               else if Ascii.eqb (Str.lower c) "o" then 8
               else if Ascii.eqb (Str.lower c) "b" then 2 else 0 in
      if b =? 0 then None else val_base b 0 (String d r)
  | _ => None
  end.

(** [Number(s)] for a string: StringToNumber. *)
Definition ofString (s : string) : number :=
  let t := Str.trim s in
  match t with
  | EmptyString => Zero false
  | _ =>
      match parse_radix t with
      | Some z => of_Z z
      | None =>
          let '(neg, u) :=
            match t with
            | String "+" r => (false, r)
            | String "-" r => (true, r)
            | _ => (false, t)
            end in
          if String.eqb u "Infinity" then Inf neg
          else match parse_decimal u with
               | Some (M, P) => ofDecimal neg M P
               | None => NaN
               end
      end
  end.

(** ** [toLocaleString('en-US', ...)] *)










End Num.

(* ===================================================================== *)
(** * JavaScript values *)
(* ===================================================================== *)

Module JS.

Import Num.

(** The values the store, the payloads and the JSON documents hold. An
    object lists its own properties in enumeration order. Structured
    values carry no identity: two of them are two references. *)
#[local] Unset Elimination Schemes.
Inductive value : Type :=
| JUndefined
| JNull
| JBool (b : bool)
| JNum (x : number)
| JStr (s : string)
| JArr (l : list value)
| JObj (o : list (string * value)).
#[local] Set Elimination Schemes.

Definition obj : Type := list (string * value).

(** [typeof v]. *)
Definition typeof (v : value) : string :=
  match v with
  | JUndefined => "undefined"
  | JBool _ => "boolean"
  | JNum _ => "number"
  | JStr _ => "string"
  | JNull | JArr _ | JObj _ => "object"
  end.

(** [Array.isArray(v)]. *)
Definition isArray (v : value) : bool :=
  match v with JArr _ => true | _ => false end.

(** The elements of an array value. *)
Definition elements (v : value) : list value :=
  match v with JArr l => l | _ => [] end.

(** [v == null]: the two values without properties. *)
Definition nullish (v : value) : bool :=
  match v with JUndefined | JNull => true | _ => false end.

(** ToBoolean: the condition of [if], [||], [&&], [!]. *)
Definition truthy (v : value) : bool :=
  match v with
  | JUndefined | JNull => false
  | JBool b => b
  | JNum (NaN | Zero _) => false
  | JNum _ => true
  | JStr EmptyString => false
  | JStr _ => true
  | JArr _ | JObj _ => true
  end.

(** [a || b]. *)
Definition or (a b : value) : value := if truthy a then a else b.

(** ToString. An array joins its elements with commas, [null] and
    [undefined] elements as empty strings. *)
Fixpoint ToString (v : value) : string :=
  match v with
  | JUndefined => "undefined"
  | JNull => "null"
  | JBool b => if b then "true" else "false"
  | JNum x => Num.toString x
  | JStr s => s
  | JArr l =>
      (fix join (l : list value) : string :=
         match l with
         | [] => EmptyString
         | x :: r =>
             let sx := match x with
                       | JUndefined | JNull => EmptyString
                       | _ => ToString x
                       end in
             match r with
             | [] => sx
             | _ => sx ++ "," ++ join r
             end
         end) l
  | JObj _ => "[object Object]"
  end.

(** ToNumber; [Number(v)]. *)
Definition ToNumber (v : value) : number :=
  match v with
  | JUndefined => NaN
  | JNull => Zero false
  | JBool b => if b then Num.of_Z 1 else Zero false
  | JNum x => x
  | JStr s => Num.ofString s
  | JArr _ | JObj _ => Num.ofString (ToString v)
  end.

(** The global [isNaN(v)]. *)
Definition isNaN (v : value) : bool := Num.isNaN (ToNumber v).

(** [a === b]. Two arrays or objects are two references. *)
Definition strict_eq (a b : value) : bool :=
  match a, b with
  | JUndefined, JUndefined => true
  | JNull, JNull => true
  | JBool x, JBool y => Bool.eqb x y
  | JNum x, JNum y => Num.eqb x y
  | JStr x, JStr y => String.eqb x y
  | _, _ => false
  end.


(** ** Objects *)

(** A property key that is an array index: the canonical decimal string of
    an integer below [2^32 - 1]. *)
Definition array_index (k : string) : option Z :=
  match k with
  | EmptyString => None
  | String c r =>
      let '(ds, rest) := Str.span_digits k in
      match rest with
      | EmptyString =>
          if Ascii.eqb c "0" && negb (String.eqb r EmptyString) then None
          else if Str.val ds <? 2 ^ 32 - 1 then Some (Str.val ds) else None
      | _ => None
      end
  end.

(** The own property [k] of [o]. *)
Fixpoint lookup (o : obj) (k : string) : option value :=
  match o with
  | [] => None
  | (k', v) :: r => if String.eqb k' k then Some v else lookup r k
  end.

(** [o[k]] on an object: [undefined] when [k] is no own property. *)
Definition get (o : obj) (k : string) : value :=
  match lookup o k with Some v => v | None => JUndefined end.

Fixpoint set_index (i : Z) (k : string) (v : value) (o : obj) : obj :=
  match o with
  | [] => [(k, v)]
  | (k', v') :: r =>
      match array_index k' with
      | Some j =>
          if j <? i then (k', v') :: set_index i k v r
          else if j =? i then (k, v) :: r
          else (k, v) :: o
      | None => (k, v) :: o
      end
  end.

Fixpoint set_named (k : string) (v : value) (o : obj) : obj :=
  match o with
  | [] => [(k, v)]
  | (k', v') :: r =>
      if String.eqb k' k then (k, v) :: r else (k', v') :: set_named k v r
  end.

(** [o[k] = v]: an existing property keeps its place; a new array index
    takes its place among the indices, another new key goes last. *)
Definition set (k : string) (v : value) (o : obj) : obj :=
  match array_index k with
  | Some i => set_index i k v o
  | None => set_named k v o
  end.

(** The properties [ps] defined one after the other on [o]: an object
    literal, a spread, the members of a JSON object. *)
Definition assign (o : obj) (ps : list (string * value)) : obj :=
  fold_left (fun acc kv => set (fst kv) (snd kv) acc) ps o.

(** The elements of an array, or the code units of a string, as
    properties keyed by their position. *)
Fixpoint indexed {A} (f : A -> value) (i : Z) (l : list A) : obj :=
  match l with
  | [] => []
  | x :: r => (Str.digits i, f x) :: indexed f (i + 1) r
  end.

(** The own enumerable properties a spread [...v] copies. *)
Definition own_properties (v : value) : obj :=
  match v with
  | JObj o => o
  | JArr l => indexed (fun x => x) 0 l
  | JStr s => indexed (fun c => JStr (String c EmptyString)) 0 (list_ascii_of_string s)
  | _ => []
  end.

(** [v[k]] and [v.k]: a TypeError ([None]) on [null] and [undefined]. *)
Definition get_prop (v : value) (k : string) : option value :=
  match v with
  | JUndefined | JNull => None
  | JObj o => Some (get o k)
  | JArr l =>
      if String.eqb k "length" then Some (JNum (Num.of_Z (Z.of_nat (List.length l))))
      else Some (get (own_properties v) k)
  | JStr s =>
      if String.eqb k "length" then Some (JNum (Num.of_Z (Str.len s)))
      else Some (get (own_properties v) k)
  | _ => Some JUndefined
  end.

(** [v?.[k]]. *)
Definition get_opt (v : value) (k : string) : value :=
  match get_prop v k with Some x => x | None => JUndefined end.

(** What [new Error(...)] and a failed property read throw. *)
Inductive exn : Type :=
| Error (message : string)
| TypeError (message : string).

Definition exn_message (e : exn) : string :=
  match e with Error m | TypeError m => m end.

(** The message of the TypeError a property read on [null] or [undefined]
    raises (V8's wording). *)
Definition cannot_read (v : value) (k : string) : exn :=
  TypeError ("Cannot read properties of " ++ ToString v ++ " (reading '" ++ k ++ "')").

(** [v.k], raising. *)
Definition read (v : value) (k : string) : value + exn :=
  match get_prop v k with
  | Some x => inl x
  | None => inr (cannot_read v k)
  end.

End JS.

(* ===================================================================== *)
(** * JSON.stringify and JSON.parse *)
(* ===================================================================== *)

Module JSON.

Import JS.

Definition nl : string := String (Str.chr 10) EmptyString.

(** The indentation of nesting depth [d] under a gap of two spaces. *)
Definition indent (d : nat) : string := Str.repeat " " (2 * d).

Definition hex_digit (d : Z) : ascii :=
  if d <? 10 then Str.chr (48 + d) else Str.chr (87 + d).

(** QuoteJSONString on one code unit. *)
Definition quote_char (c : ascii) : string :=
  let n := Str.code c in
  if n =? 34 then String Str.backslash (String Str.dquote EmptyString)
  else if n =? 92 then String Str.backslash (String Str.backslash EmptyString)
  else if n =? 8 then "\b"
  else if n =? 12 then "\f"
  else if n =? 10 then "\n"
  else if n =? 13 then "\r"
  else if n =? 9 then "\t"
  else if n <? 32 then
    "\u00" ++ String (hex_digit (n / 16)) (String (hex_digit (n mod 16)) EmptyString)
  else String c EmptyString.

Fixpoint quote_body (s : string) : string :=
  match s with
  | EmptyString => EmptyString
  | String c r => quote_char c ++ quote_body r
  end.

Definition quote (s : string) : string :=
  String Str.dquote (quote_body s ++ String Str.dquote EmptyString).

Fixpoint join (sep : string) (l : list string) : string :=
  match l with
  | [] => EmptyString
  | x :: r =>
      match r with
      | [] => x
      | _ => x ++ sep ++ join sep r
      end
  end.

(** The items of an array or object at depth [d], one per line. *)
Definition wrap (opening closing : string) (d : nat) (items : list string)
  : string :=
  match items with
  | [] => opening ++ closing
  | _ =>
      opening ++ nl ++ indent (S d) ++
      join ("," ++ nl ++ indent (S d)) items ++
      nl ++ indent d ++ closing
  end.

(** SerializeJSONProperty: [None] is [undefined] (the property is left
    out of an object; an array holds [null] in its place). *)
Fixpoint serialize (d : nat) (v : value) : option string :=
  match v with
  | JUndefined => None
  | JNull => Some "null"
  | JBool b => Some (if b then "true" else "false")
  | JNum x => Some (if Num.isFinite x then Num.toString x else "null")
  | JStr s => Some (quote s)
  | JArr l =>
      Some (wrap "[" "]" d
              ((fix items (l : list value) : list string :=
                  match l with
                  | [] => []
                  | x :: r =>
                      match serialize (S d) x with
                      | Some t => t
                      | None => "null"
                      end :: items r
                  end) l))
  | JObj o =>
      Some (wrap "{" "}" d
              ((fix members (o : list (string * value)) : list string :=
                  match o with
                  | [] => []
                  | (k, x) :: r =>
                      match serialize (S d) x with
                      | Some t => (quote k ++ ": " ++ t) :: members r
                      | None => members r
                      end
                  end) o))
  end.

(** The text of an array element, and of the members of an object. *)
Definition element_text (d : nat) (x : value) : string :=
  match serialize d x with
  | Some t => t
  | None => "null"
  end.

Fixpoint member_texts (d : nat) (o : obj) : list string :=
  match o with
  | [] => []
  | (k, x) :: r =>
      match serialize d x with
      | Some t => (quote k ++ ": " ++ t) :: member_texts d r
      | None => member_texts d r
      end
  end.

(** What may follow a value in a document this module writes: the end,
    a comma, or a line break. *)
Definition value_stop (rest : string) : bool :=
  match rest with
  | EmptyString => true
  | String c _ => Ascii.eqb c "," || (Str.code c =? 10)
  end.

(** [JSON.stringify(v, null, 2)]; [None] is [undefined]. *)
Definition stringify (v : value) : option string := serialize 0 v.

(** ** Parsing *)

Definition is_ws (c : ascii) : bool :=
  let n := Str.code c in (n =? 32) || (n =? 9) || (n =? 10) || (n =? 13).

Fixpoint skip_ws (s : string) : string :=
  match s with
  | String c r => if is_ws c then skip_ws r else s
  | EmptyString => EmptyString
  end.

(** A code point in UTF-8. *)
Definition utf8 (cp : Z) : string :=
  if cp <? 128 then String (Str.chr cp) EmptyString
  else if cp <? 2048 then
    String (Str.chr (192 + cp / 64)) (String (Str.chr (128 + cp mod 64)) EmptyString)
  else if cp <? 65536 then
    String (Str.chr (224 + cp / 4096))
      (String (Str.chr (128 + (cp / 64) mod 64))
         (String (Str.chr (128 + cp mod 64)) EmptyString))
  else
    String (Str.chr (240 + cp / 262144))
      (String (Str.chr (128 + (cp / 4096) mod 64))
         (String (Str.chr (128 + (cp / 64) mod 64))
            (String (Str.chr (128 + cp mod 64)) EmptyString))).

(** The units of a string literal: a code unit of the text, or the code
    unit a [\uXXXX] escape above ASCII names. *)
Definition unit : Type := (ascii + Z)%type.

Definition hex4 (a b c d : ascii) : option Z :=
  match Num.hex_val a, Num.hex_val b, Num.hex_val c, Num.hex_val d with
  | Some x, Some y, Some z, Some w => Some (((x * 16 + y) * 16 + z) * 16 + w)
  | _, _, _, _ => None
  end.

Definition simple_escape (c : ascii) : option ascii :=
  let n := Str.code c in
  if n =? 34 then Some c
  else if n =? 92 then Some c
  else if n =? 47 then Some c
  else if n =? 98 then Some (Str.chr 8)
  else if n =? 102 then Some (Str.chr 12)
  else if n =? 110 then Some (Str.chr 10)
  else if n =? 114 then Some (Str.chr 13)
  else if n =? 116 then Some (Str.chr 9)
  else None.

(** The units of a string literal after its opening quote, up to the
    closing quote, and what follows it. *)
Fixpoint lex_string (s : string) : option (list unit * string) :=
  match s with
  | EmptyString => None
  | String c r =>
      if Str.code c =? 34 then Some ([], r)
      else if Str.code c <? 32 then None
      else if Str.code c =? 92 then
        match r with
        | String e r1 =>
            if Str.code e =? 117 then
              match r1 with
              | String h1 (String h2 (String h3 (String h4 r2))) =>
                  match hex4 h1 h2 h3 h4, lex_string r2 with
                  | Some cp, Some (us, t) =>
                      Some ((if cp <? 128 then inl (Str.chr cp) else inr cp) :: us, t)
                  | _, _ => None
                  end
              | _ => None
              end
            else
              match simple_escape e, lex_string r1 with
              | Some x, Some (us, t) => Some (inl x :: us, t)
              | _, _ => None
              end
        | EmptyString => None
        end
      else
        match lex_string r with
        | Some (us, t) => Some (inl c :: us, t)
        | None => None
        end
  end.

(** The units as text: a surrogate pair is one code point. *)
Fixpoint decode (us : list unit) : string :=
  match us with
  | [] => EmptyString
  | inl c :: r => String c (decode r)
  | inr hi :: r =>
      match r with
      | inr lo :: r' =>
          if (55296 <=? hi) && (hi <? 56320) && (56320 <=? lo) && (lo <? 57344)
          then utf8 (65536 + (hi - 55296) * 1024 + (lo - 56320)) ++ decode r'
          else utf8 hi ++ decode r
      | _ => utf8 hi ++ decode r
      end
  end.

Definition parse_string (s : string) : option (string * string) :=
  match lex_string s with
  | Some (us, t) => Some (decode us, t)
  | None => None
  end.

(** The integer part of a JSON number: a lone zero, or digits that do
    not start with one. *)
Definition lex_int (s : string) : option (string * string) :=
  match s with
  | String c r =>
      if Ascii.eqb c "0" then Some ("0", r)
      else if Str.is_digit c then Some (Str.span_digits s)
      else None
  | EmptyString => None
  end.

Definition lex_frac (s : string) : option (string * string) :=
  match s with
  | String c r =>
      if Ascii.eqb c "." then
        let '(fp, t) := Str.span_digits r in
        match fp with
        | EmptyString => None
        | _ => Some (fp, t)
        end
      else Some (EmptyString, s)
  | EmptyString => Some (EmptyString, s)
  end.

Definition lex_exp (s : string) : option (Z * string) :=
  match s with
  | String c r => if Num.is_exp_mark c then Num.parse_exponent r else Some (0, s)
  | EmptyString => Some (0, s)
  end.

(** The digits, fraction and exponent of a JSON number after its sign. *)
Definition parse_unsigned (neg : bool) (s0 : string)
  : option (Num.number * string) :=
  match lex_int s0 with
  | None => None
  | Some (ip, s1) =>
      match lex_frac s1 with
      | None => None
      | Some (fp, s2) =>
          match lex_exp s2 with
          | None => None
          | Some (x, s3) =>
              Some (Num.ofDecimal neg (Str.val (ip ++ fp)) (x - Str.len fp), s3)
          end
      end
  end.

Definition parse_number (s : string) : option (Num.number * string) :=
  match s with
  | String c r =>
      if Ascii.eqb c "-" then parse_unsigned true r else parse_unsigned false s
  | EmptyString => None
  end.

(** What may follow a number in a document: nothing that would extend
    it. *)
Definition number_stop (rest : string) : bool :=
  match rest with
  | EmptyString => true
  | String c _ =>
      negb (Str.is_digit c) && negb (Ascii.eqb c ".") && negb (Num.is_exp_mark c)
  end.

Definition parse_literal (lit : string) (v : value) (s : string)
  : option (value * string) :=
  if Str.startsWith lit s then Some (v, Str.drop (String.length lit) s)
  else None.

(** The first code unit of [s] is [c]; [s] without its first code unit. *)
Definition head_is (c : ascii) (s : string) : bool :=
  match s with
  | String x _ => Ascii.eqb x c
  | EmptyString => false
  end.

Definition tail (s : string) : string :=
  match s with
  | String _ r => r
  | EmptyString => EmptyString
  end.

(** A JSON value at the head of [s] (after white space) and the rest;
    the elements of an array after its bracket; the members of an object
    after its brace. One unit of fuel per nested call. *)
Fixpoint parse_value (fuel : nat) (s : string) : option (value * string) :=
  match fuel with
  | O => None
  | S f =>
      match skip_ws s with
      | EmptyString => None
      | String c r =>
          let n := Str.code c in
          if n =? 110 then parse_literal "null" JNull (String c r)
          else if n =? 116 then parse_literal "true" (JBool true) (String c r)
          else if n =? 102 then parse_literal "false" (JBool false) (String c r)
          else if n =? 34 then
            match parse_string r with
            | Some (t, r') => Some (JStr t, r')
            | None => None
            end
          else if n =? 91 then
            if head_is "]" (skip_ws r) then Some (JArr [], tail (skip_ws r))
            else
              match parse_elements f r with
              | Some (l, r') => Some (JArr l, r')
              | None => None
              end
          else if n =? 123 then
            if head_is "}" (skip_ws r) then Some (JObj [], tail (skip_ws r))
            else
              match parse_members f r with
              | Some (ps, r') => Some (JObj (assign [] ps), r')
              | None => None
              end
          else
            match parse_number (String c r) with
            | Some (x, r') => Some (JNum x, r')
            | None => None
            end
      end
  end
with parse_elements (fuel : nat) (s : string) : option (list value * string) :=
  match fuel with
  | O => None
  | S f =>
      match parse_value f s with
      | None => None
      | Some (v, r) =>
          match skip_ws r with
          | String "," r' =>
              match parse_elements f r' with
              | Some (l, t) => Some (v :: l, t)
              | None => None
              end
          | String "]" r' => Some ([v], r')
          | _ => None
          end
      end
  end
with parse_members (fuel : nat) (s : string)
  : option (list (string * value) * string) :=
  match fuel with
  | O => None
  | S f =>
      match skip_ws s with
      | String q r =>
          if Str.code q =? 34 then
            match parse_string r with
            | None => None
            | Some (k, r1) =>
                match skip_ws r1 with
                | String ":" r2 =>
                    match parse_value f r2 with
                    | None => None
                    | Some (v, r3) =>
                        match skip_ws r3 with
                        | String "," r' =>
                            match parse_members f r' with
                            | Some (ps, t) => Some ((k, v) :: ps, t)
                            | None => None
                            end
                        | String "}" r' => Some ([(k, v)], r')
                        | _ => None
                        end
                    end
                | _ => None
                end
            end
          else None
      | EmptyString => None
      end
  end.

(** [JSON.parse(s)]; [None] is the SyntaxError it throws. *)
Definition parse (s : string) : option value :=
  match parse_value (String.length s) s with
  | Some (v, rest) =>
      match skip_ws rest with
      | EmptyString => Some v
      | _ => None
      end
  | None => None
  end.

End JSON.

(* ===================================================================== *)
(** * store/nlqStore.js *)
(* ===================================================================== *)

Module Store.

Import JS.

(** The state the zustand store holds (the [actions] apart). *)
Record State : Type := {
  queryHistory : list value;
  currentQuery : string;
  isProcessing : bool;
  currentLanguage : string;
  currentResult : value;
  queryError : value;
  theme : string;
  fontSize : string;
  currentView : string;
  settings : obj;
  schema : value;
  schemaLoading : bool;
  serviceHealth : value
}.

Definition defaultSettings : obj :=
  [ ("autoExecute", JBool true);
    ("showExplanation", JBool true);
    ("maxResults", JNum (Num.of_Z 1000));
    ("enableSuggestions", JBool true);
    ("enableCharts", JBool true);
    ("chartType", JStr "table") ].

Definition initial : State := {|
  queryHistory := [];
  currentQuery := "";
  isProcessing := false;
  currentLanguage := "en";
  currentResult := JNull;
  queryError := JNull;
  theme := "light";
  fontSize := "medium";
  currentView := "dashboard";
  settings := defaultSettings;
  schema := JNull;
  schemaLoading := false;
  serviceHealth := JNull
|}.

(** [set({ field: x })]: one field replaced, the others kept. *)
Definition set_queryHistory (h : list value) (st : State) : State :=
  {| queryHistory := h; currentQuery := currentQuery st;
     isProcessing := isProcessing st; currentLanguage := currentLanguage st;
     currentResult := currentResult st; queryError := queryError st;
     theme := theme st; fontSize := fontSize st;
     currentView := currentView st; settings := settings st;
     schema := schema st; schemaLoading := schemaLoading st;
     serviceHealth := serviceHealth st |}.

Definition set_currentQuery (q : string) (st : State) : State :=
  {| queryHistory := queryHistory st; currentQuery := q;
     isProcessing := isProcessing st; currentLanguage := currentLanguage st;
     currentResult := currentResult st; queryError := queryError st;
     theme := theme st; fontSize := fontSize st;
     currentView := currentView st; settings := settings st;
     schema := schema st; schemaLoading := schemaLoading st;
     serviceHealth := serviceHealth st |}.

Definition set_isProcessing (b : bool) (st : State) : State :=
  {| queryHistory := queryHistory st; currentQuery := currentQuery st;
     isProcessing := b; currentLanguage := currentLanguage st;
     currentResult := currentResult st; queryError := queryError st;
     theme := theme st; fontSize := fontSize st;
     currentView := currentView st; settings := settings st;
     schema := schema st; schemaLoading := schemaLoading st;
     serviceHealth := serviceHealth st |}.

Definition set_currentLanguage (l : string) (st : State) : State :=
  {| queryHistory := queryHistory st; currentQuery := currentQuery st;
     isProcessing := isProcessing st; currentLanguage := l;
     currentResult := currentResult st; queryError := queryError st;
     theme := theme st; fontSize := fontSize st;
     currentView := currentView st; settings := settings st;
     schema := schema st; schemaLoading := schemaLoading st;
     serviceHealth := serviceHealth st |}.

(** [set({ currentResult: r, queryError: e })]. *)
Definition set_result_error (r e : value) (st : State) : State :=
  {| queryHistory := queryHistory st; currentQuery := currentQuery st;
     isProcessing := isProcessing st; currentLanguage := currentLanguage st;
     currentResult := r; queryError := e;
     theme := theme st; fontSize := fontSize st;
     currentView := currentView st; settings := settings st;
     schema := schema st; schemaLoading := schemaLoading st;
     serviceHealth := serviceHealth st |}.

Definition set_settings (s : obj) (st : State) : State :=
  {| queryHistory := queryHistory st; currentQuery := currentQuery st;
     isProcessing := isProcessing st; currentLanguage := currentLanguage st;
     currentResult := currentResult st; queryError := queryError st;
     theme := theme st; fontSize := fontSize st;
     currentView := currentView st; settings := s;
     schema := schema st; schemaLoading := schemaLoading st;
     serviceHealth := serviceHealth st |}.

(** ** Actions *)

Definition setCurrentQuery (query : string) : State -> State :=
  set_currentQuery query.

Definition setProcessing (isProcessing : bool) : State -> State :=
  set_isProcessing isProcessing.

Definition setLanguage (language : string) : State -> State :=
  set_currentLanguage language.

(** [{ id: Date.now(), timestamp: new Date().toISOString(), ...queryData }]:
    the properties of [queryData] come last and win. *)
Definition newEntry (now : Z) (iso : string) (queryData : value) : value :=
  JObj (assign [] ([("id", JNum (Num.of_Z now)); ("timestamp", JStr iso)]
                   ++ own_properties queryData)).

(** [addToHistory(queryData)], [now] and [iso] the two clock reads. *)
Definition addToHistory (now : Z) (iso : string) (queryData : value)
  (st : State) : State :=
  set_queryHistory
    (firstn 100 (newEntry now iso queryData :: queryHistory st)) st.

Definition clearHistory (st : State) : State := set_queryHistory [] st.



Definition setCurrentResult (result : value) : State -> State :=
  set_result_error result JNull.

Definition setQueryError (error : value) : State -> State :=
  set_result_error JNull error.

Definition clearResult : State -> State := set_result_error JNull JNull.

(** [{ ...settings, ...newSettings }]. *)
Definition updateSettings (newSettings : value) (st : State) : State :=
  set_settings
    (assign [] (settings st ++ own_properties newSettings)) st.

Definition resetSettings : State -> State := set_settings defaultSettings.

(** What [exportHistory] hands to the browser: the document of the blob
    and the name of the download. *)
Record Download : Type := { content : string; download : string }.

(** [s.split('T')[0]]. *)
Fixpoint before_T (s : string) : string :=
  match s with
  | EmptyString => EmptyString
  | String c r => if Ascii.eqb c "T" then EmptyString else String c (before_T r)
  end.

(** [exportHistory()], [iso] the clock read that names the file. *)
Definition exportHistory (iso : string) (st : State) : Download :=
  {| content := match JSON.stringify (JArr (queryHistory st)) with
                | Some dataStr => dataStr
                | None => "undefined"
                end;
     download := "nlq-history-" ++ before_T iso ++ ".json" |}.

(** How the promise of [importHistory] settles. *)
Inductive settled : Type :=
| Resolved (data : value)
| Rejected (error : exn).

(** [importHistory(file)]: [file] is what [readAsText] delivers, [None]
    when the read fails. *)
Definition importHistory (file : option string) (st : State)
  : State * settled :=
  match file with
  | None => (st, Rejected (Error "Failed to read file"))
  | Some text =>
      match JSON.parse text with
      | Some data =>
          if isArray data then (set_queryHistory (elements data) st, Resolved data)
          else (st, Rejected (Error "Invalid file format"))
      | None => (st, Rejected (Error "Failed to parse file"))
      end
  end.

(** [reset()]. *)
Definition reset (st : State) : State := initial.

(** [partialize]: the fields the persist middleware writes to local
    storage. *)
Definition partialize (st : State) : value :=
  JObj [ ("queryHistory", JArr (queryHistory st));
         ("currentLanguage", JStr (currentLanguage st));
         ("theme", JStr (theme st));
         ("fontSize", JStr (fontSize st));
         ("settings", JObj (settings st)) ].

End Store.

(* ===================================================================== *)
(** * components/QueryResult.jsx *)
(* ===================================================================== *)

Module QueryResult.

Import JS.

(** A column descriptor. *)
Record Column : Type := { name : string; type : string }.

(** The [result] prop: rows are records keyed by column name; [data] and
    [columns] may be absent. *)
Record Result : Type := {
  success : bool;
  data : option (list obj);
  columns : option (list Column);
  sql : value;
  explanation : value;
  confidence : value;
  executionResult : value
}.







(** [data?.[0]?.[name]]. *)
Definition firstRowValue (r : Result) (name : string) : value :=
  match data r with
  | Some (row :: _) => get row name
  | _ => JUndefined
  end.

(** The predicate of the [numericColumns] filter. *)
Definition isNumericColumn (r : Result) (col : Column) : bool :=
  String.eqb (type col) "number" ||
  String.eqb (typeof (firstRowValue r (name col))) "number".

(** The predicate of the [categoricalColumns] filter. *)
Definition isCategoricalColumn (r : Result) (col : Column) : bool :=
  String.eqb (type col) "string" ||
  String.eqb (typeof (firstRowValue r (name col))) "string".

Definition numericColumns (r : Result) : list Column :=
  match columns r with
  | Some cols => filter (isNumericColumn r) cols
  | None => []
  end.

Definition categoricalColumns (r : Result) : list Column :=
  match columns r with
  | Some cols => filter (isCategoricalColumn r) cols
  | None => []
  end.















End QueryResult.

(* ===================================================================== *)
(** * services/api.js *)
(* ===================================================================== *)

Module Api.

Import JS.

(** The error axios hands to the response interceptor: the response
    (status and body) when the server answered, the request, the
    message. *)
Record AxiosError : Type := {
  response : option (Z * value);
  request : value;
  message : value
}.

(** [throw new Error(data.message || fallback)]. *)
Definition throwMessage (data : value) (fallback : string) : exn :=
  match read data "message" with
  | inl m => Error (ToString (or m (JStr fallback)))
  | inr x => x
  end.

(** The rejection handler of [api.interceptors.response]: what it
    throws. *)
Definition responseError (error : AxiosError) : exn :=
  match response error with
  | Some (status, data) =>
      if status =? 400 then throwMessage data "Bad Request"
      else if status =? 401 then Error "Unauthorized access"
      else if status =? 403 then Error "Forbidden access"
      else if status =? 404 then Error "Resource not found"
      else if status =? 429 then Error "Rate limit exceeded. Please try again later."
      else if status =? 500 then Error "Internal server error"
      else throwMessage data ("Request failed with status " ++ Str.of_Z status)
  | None =>
      if truthy (request error) then
        Error "Network error. Please check your connection."
      else
        Error (ToString (or (message error) (JStr "An unexpected error occurred")))
  end.

(** The body [nlqAPI.processQuery(query, options)] posts to
    [/nlq/query]. *)
Definition processQueryBody (query : string) (options : obj) : value :=
  JObj (assign []
    [ ("query", JStr query);
      ("language", or (get options "language") (JStr "en"));
      ("options",
       JObj (assign []
         ([ ("includeExplanation",
             JBool (negb (strict_eq (get options "includeExplanation") (JBool false))));
            ("validateBeforeExecution",
             JBool (negb (strict_eq (get options "validateBeforeExecution") (JBool false))));
            ("maxResults", or (get options "maxResults") (JNum (Num.of_Z 1000))) ]
          ++ options))) ]).

(** [errorHandler.getErrorMessage(error)] on a thrown [Error]: its
    message unless empty (it has no [response]). *)
Definition getErrorMessage (error : exn) : string :=
  match exn_message error with
  | EmptyString => "An unexpected error occurred"
  | m => m
  end.

End Api.

(* ===================================================================== *)
(** * components/ChatInterface.jsx *)
(* ===================================================================== *)

Module ChatInterface.

Import JS Store.

(** What the handler does to the world outside the store and the
    component: the DOM event, the HTTP call, the notifications. *)
Inductive effect : Type :=
| PreventDefault
| Post (url : string) (body : value)
| ToastSuccess (text : string)
| ToastError (text : string).

(** One read of the wall clock: [Date.now()] and
    [new Date().toISOString()]. *)
Record Clock : Type := { now : Z; iso : string }.

(** The component with its store: the [inputValue] state, the store the
    handler reads and writes, and the queries whose call to
    [processQuery] has not settled yet, oldest first. *)
Record System : Type := {
  inputValue : string;
  store : State;
  awaiting : list string
}.

(** How the awaited [nlqAPI.processQuery] settles: the body of the
    response, or what the interceptor threw. *)
Inductive outcome : Type :=
| Fulfilled (result : value)
| Failed (error : exn).

(** [handleSubmit(e)] up to its [await]. The handler reads
    [isProcessing], [currentLanguage] and [settings] of the store;
    [t] is the clock read of the entry's timestamp, [c] those of
    [addToHistory]. *)
Definition handleSubmit (t c : Clock) (sys : System) : System * list effect :=
  if negb (truthy (JStr (Str.trim (inputValue sys)))) || isProcessing (store sys)
  then (sys, [PreventDefault])
  else
    let query := Str.trim (inputValue sys) in
    let st := clearResult (setProcessing true (setCurrentQuery query (store sys))) in
    let st := addToHistory (now c) (iso c)
                (JObj (assign []
                   [ ("type", JStr "user");
                     ("query", JStr query);
                     ("language", JStr (currentLanguage (store sys)));
                     ("timestamp", JStr (iso t)) ])) st in
    ({| inputValue := ""; store := st; awaiting := awaiting sys ++ [query] |},
     [ PreventDefault;
       Post "/nlq/query"
         (Api.processQueryBody query
            (assign [] (("language", JStr (currentLanguage (store sys)))
                        :: settings (store sys)))) ]).

(** The [catch] block followed by [finally]. *)
Definition handleFailure (t c : Clock) (query : string) (error : exn)
  (st : State) : State * list effect :=
  let errorMessage := Api.getErrorMessage error in
  let st := setQueryError (JStr errorMessage) st in
  let st := addToHistory (now c) (iso c)
              (JObj (assign []
                 [ ("type", JStr "error");
                   ("query", JStr query);
                   ("error", JStr errorMessage);
                   ("timestamp", JStr (iso t)) ])) st in
  (setProcessing false st, [ToastError errorMessage]).

(** [handleSubmit] after its [await], for the submission of [query]. *)
Definition handleSettled (t c : Clock) (query : string) (o : outcome)
  (st : State) : State * list effect :=
  match o with
  | Failed error => handleFailure t c query error st
  | Fulfilled result =>
      match read result "success" with
      | inr x => handleFailure t c query x st
      | inl ok =>
          if truthy ok then
            let st := setCurrentResult result st in
            let st := addToHistory (now c) (iso c)
                        (JObj (assign []
                           [ ("type", JStr "bot");
                             ("query", JStr query);
                             ("result", result);
                             ("timestamp", JStr (iso t)) ])) st in
            (setProcessing false st, [ToastSuccess "Query processed successfully"])
          else
            handleFailure t c query
              (Error (ToString (or (get_opt result "error")
                                   (JStr "Query processing failed")))) st
      end
  end.

(** What happens to the component. *)
Inductive event : Type :=
| Typed (text : string)
| Submitted (t c : Clock)
| Settled (t c : Clock) (o : outcome).

Definition step (sys : System) (ev : event) : System * list effect :=
  match ev with
  | Typed text =>
      ({| inputValue := text; store := store sys; awaiting := awaiting sys |}, [])
  | Submitted t c => handleSubmit t c sys
  | Settled t c o =>
      match awaiting sys with
      | [] => (sys, [])
      | query :: rest =>
          let '(st, effs) := handleSettled t c query o (store sys) in
          ({| inputValue := inputValue sys; store := st; awaiting := rest |}, effs)
      end
  end.

(** The system after a sequence of events, and the effects in order. *)
Fixpoint run (sys : System) (evs : list event) : System * list effect :=
  match evs with
  | [] => (sys, [])
  | ev :: rest =>
      let '(sys1, effs1) := step sys ev in
      let '(sys2, effs2) := run sys1 rest in
      (sys2, (effs1 ++ effs2)%list)
  end.

(** The outbound calls among the effects. *)
Definition posts (effs : list effect) : list effect :=
  filter (fun e => match e with Post _ _ => true | _ => false end) effs.

End ChatInterface.

(* ===================================================================== *)
(** * The vocabulary of the specification *)
(* ===================================================================== *)

Module Spec.

Import JS.

(** A call of [addToHistory]: its two clock reads and its argument. *)
Definition call : Type := (Z * string * value)%type.

Definition entryOf (c : call) : value :=
  let '(now, iso, queryData) := c in Store.newEntry now iso queryData.

(** The store after a sequence of [addToHistory] calls. *)
Definition addCalls (calls : list call) (st : Store.State) : Store.State :=
  fold_left (fun st c => let '(now, iso, queryData) := c in
                         Store.addToHistory now iso queryData st) calls st.

(** [v !== null]. *)
Definition nonNull (v : value) : bool := negb (strict_eq v JNull).

(** Exactly one, and at most one, of the current result and the current
    error is non-null. *)
Definition exactlyOne (st : Store.State) : Prop :=
  xorb (nonNull (Store.currentResult st)) (nonNull (Store.queryError st)) = true.

Definition atMostOne (st : Store.State) : Prop :=
  nonNull (Store.currentResult st) && nonNull (Store.queryError st) = false.

(** "The value coerces to a number without error": [Number(v)] is not
    NaN. *)
Definition coercesToNumber (v : value) : bool := negb (isNaN v).

(** The classification as the specification words it. *)
Definition specNumeric (r : QueryResult.Result) (col : QueryResult.Column) : bool :=
  String.eqb (QueryResult.type col) "number" ||
  coercesToNumber (QueryResult.firstRowValue r (QueryResult.name col)).

(** [l] is [h] with some elements left out, the others in their order. *)
Inductive subsequence {A : Type} : list A -> list A -> Prop :=
| sub_nil : subsequence [] []
| sub_keep x l h : subsequence l h -> subsequence (x :: l) (x :: h)
| sub_drop x l h : subsequence l h -> subsequence l (x :: h).








(** The fixed message of a status. *)
Definition fixedMessage (status : Z) : string :=
  if status =? 400 then "Bad Request"
  else if status =? 401 then "Unauthorized access"
  else if status =? 403 then "Forbidden access"
  else if status =? 404 then "Resource not found"
  else if status =? 429 then "Rate limit exceeded. Please try again later."
  else if status =? 500 then "Internal server error"
  else "Request failed with status " ++ Str.of_Z status.

(** The statuses whose message never comes from the server. *)
Definition fixedOnly (status : Z) : bool :=
  (status =? 401) || (status =? 403) || (status =? 404) ||
  (status =? 429) || (status =? 500).

(** The message field the server supplied, when one is present. *)
Definition serverMessage (data : value) : option string :=
  match data with
  | JObj o =>
      match lookup o "message" with
      | Some m => if truthy m then Some (ToString m) else None
      | None => None
      end
  | _ => None
  end.

(** "A fixed message per status, falling back to the server-supplied
    message field when one is present." *)
Definition specRequestError (status : Z) (data : value) : exn :=
  match serverMessage data with
  | Some m => Error m
  | None => Error (fixedMessage status)
  end.

(** A number JSON can write and read back: a finite double other than
    the negative zero. *)
Definition numSafe (x : Num.number) : Prop :=
  match x with
  | Num.Zero false => True
  | Num.Fin _ _ _ => Num.canonical x = true
  | _ => False
  end.

(** A value JSON represents: no [undefined], no number outside
    [numSafe], every object with its properties in own-property order. *)
#[local] Unset Elimination Schemes.
Inductive jsonSafe : value -> Prop :=
| safe_null : jsonSafe JNull
| safe_bool b : jsonSafe (JBool b)
| safe_num x : numSafe x -> jsonSafe (JNum x)
| safe_str s : jsonSafe (JStr s)
| safe_arr l : Forall jsonSafe l -> jsonSafe (JArr l)
| safe_obj o :
    assign [] o = o ->
    Forall (fun kv => jsonSafe (snd kv)) o ->
    jsonSafe (JObj o).
#[local] Set Elimination Schemes.

(** A value written at any depth, followed by the end of the document, a
    comma or a line break, is read back, given fuel for its text. *)
Definition Parses (v : value) : Prop :=
  forall d t rest fuel,
    JSON.serialize d v = Some t -> JSON.value_stop rest = true ->
    (String.length t <= fuel)%nat ->
    JSON.parse_value fuel (t ++ rest) = Some (v, rest).

(** The import of the document an export of [st] produces, into [st']. *)
Definition exportThenImport (iso : string) (st st' : Store.State)
  : Store.State * Store.settled :=
  Store.importHistory (Some (Store.content (Store.exportHistory iso st))) st'.

End Spec.

(* ===================================================================== *)
(** * Sample payloads and histories *)
(* ===================================================================== *)

Module Examples.

Import JS QueryResult Store Spec.

(** A result with one column of decimal strings, declared as text. *)
Definition textResult : Result := {|
  success := true;
  data := Some [ [("region", JStr "north"); ("total", JStr "5")];
                 [("region", JStr "south"); ("total", JStr "7")];
                 [("region", JStr "north"); ("total", JStr "9")] ];
  columns := Some [ {| name := "region"; type := "string" |};
                    {| name := "total"; type := "string" |} ];
  sql := JStr "SELECT region, total FROM t";
  explanation := JUndefined;
  confidence := JUndefined;
  executionResult := JUndefined
|}.



(** The history after a question, its answer with a result table, and a
    failed question. *)
Definition sampleHistory : list value :=
  queryHistory
    (addCalls
       [ (1700000000000, "2023-11-14T22:13:20.000Z",
          JObj [("type", JStr "user"); ("query", JStr "revenue by region");
                ("language", JStr "en")]);
         (1700000000850, "2023-11-14T22:13:20.850Z",
          JObj [("type", JStr "bot"); ("query", JStr "revenue by region");
                ("result",
                 JObj [("success", JBool true);
                       ("data",
                        JArr [JObj [("region", JStr "north");
                                    ("total_revenue", JNum (Num.ofString "1234.5"));
                                    ("conversion_rate", JStr "12.345");
                                    ("order_count", JNum (Num.of_Z 42))];
                              JObj [("region", JStr "south");
                                    ("total_revenue", JNum (Num.ofString "-0.1"));
                                    ("conversion_rate", JNull);
                                    ("order_count", JNum (Num.ofString "1e21"))]]);
                       ("columns", JArr [])])]);
         (1700000002000, "2023-11-14T22:13:22.000Z",
          JObj [("type", JStr "error"); ("query", JStr "drop it");
                ("error", JStr "Rate limit exceeded. Please try again later.")]) ]
       initial).

End Examples.

(* ===================================================================== *)
(** * Facts about the platform model: digits, rounding, JSON *)
(* ===================================================================== *)

Module ListFacts.

Import Spec.

Lemma firstn_app_firstn {A} n (a b : list A) :
  firstn n (a ++ firstn n b) = firstn n (a ++ b).
Proof.
  rewrite !firstn_app, firstn_firstn.
  f_equal. f_equal. lia.
Qed.

Lemma filter_subsequence {A} (f : A -> bool) (l : list A) :
  subsequence (filter f l) l.
Proof.
  induction l as [|x l IH]; cbn; [constructor|].
  destruct (f x); constructor; exact IH.
Qed.

End ListFacts.

Module StrFacts.

Import Str.

Lemma app_assoc (a b c : string) : (a ++ b) ++ c = a ++ (b ++ c).
Proof. induction a as [|x a IH]; cbn; [reflexivity|]. now rewrite IH. Qed.

Lemma app_nil_r (a : string) : a ++ "" = a.
Proof. induction a as [|x a IH]; cbn; [reflexivity|]. now rewrite IH. Qed.

Lemma length_app (a b : string) :
  String.length (a ++ b) = (String.length a + String.length b)%nat.
Proof. induction a as [|x a IH]; cbn; [reflexivity|]. now rewrite IH. Qed.

Lemma len_app (a b : string) : len (a ++ b) = len a + len b.
Proof. unfold len. rewrite length_app. lia. Qed.

Lemma length_repeat c n : String.length (repeat c n) = n.
Proof. induction n; cbn; congruence. Qed.


Lemma all_app f a b : all f (a ++ b) = all f a && all f b.
Proof. induction a as [|x a IH]; cbn; [reflexivity|]. now rewrite IH, andb_assoc. Qed.

Lemma all_repeat f c n : f c = true -> all f (repeat c n) = true.
Proof. intros H. induction n; cbn; [reflexivity|]. now rewrite H. Qed.

Lemma all_take f n s : all f s = true -> all f (take n s) = true.
Proof.
  revert s. induction n as [|n IH]; intros [|c s]; cbn; try reflexivity.
  intros H. apply andb_true_iff in H. destruct H as [H1 H2].
  now rewrite H1, IH.
Qed.

Lemma all_drop f n s : all f s = true -> all f (drop n s) = true.
Proof.
  revert s. induction n as [|n IH]; intros [|c s]; cbn; try reflexivity; try easy.
  intros H. apply andb_true_iff in H. now apply IH.
Qed.

Lemma take_drop n s : take n s ++ drop n s = s.
Proof.
  revert s. induction n as [|n IH]; intros [|c s]; cbn; try reflexivity.
  now rewrite IH.
Qed.

Lemma length_drop n s : String.length (drop n s) = (String.length s - n)%nat.
Proof.
  revert s. induction n as [|n IH]; intros [|c s]; cbn; try reflexivity.
  apply IH.
Qed.

Lemma span_digits_app a b :
  all is_digit a = true -> no_digit_ahead b = true ->
  span_digits (a ++ b) = (a, b).
Proof.
  intros Ha Hb. induction a as [|c a IH]; cbn in *.
  - destruct b as [|c b]; [reflexivity|]. cbn in Hb.
    apply negb_true_iff in Hb. cbn. now rewrite Hb.
  - apply andb_true_iff in Ha. destruct Ha as [Hc Ha].
    rewrite Hc, IH by exact Ha. reflexivity.
Qed.

Lemma code_chr z : 0 <= z < 256 -> code (chr z) = z.
Proof.
  intros H. unfold code, chr.
  rewrite nat_ascii_embedding by lia. lia.
Qed.

Lemma digit_val_char d : 0 <= d < 10 -> digit_val (digit_char d) = d.
Proof. intros H. unfold digit_val, digit_char. rewrite code_chr by lia. lia. Qed.

Lemma is_digit_char d : 0 <= d < 10 -> is_digit (digit_char d) = true.
Proof.
  intros H. unfold is_digit, digit_char. rewrite code_chr by lia.
  apply andb_true_iff. split; apply Z.leb_le; lia.
Qed.

Lemma val_acc_app acc a b : val_acc acc (a ++ b) = val_acc (val_acc acc a) b.
Proof. revert acc. induction a as [|c a IH]; intros acc; cbn; [reflexivity|]. apply IH. Qed.

Lemma val_acc_shift acc s : val_acc acc s = acc * 10 ^ len s + val s.
Proof.
  unfold val. revert acc. induction s as [|c s IH]; intros acc; cbn [val_acc].
  - unfold len. cbn. lia.
  - rewrite IH, (IH (10 * 0 + digit_val c)).
    replace (len (String c s)) with (len s + 1) by (unfold len; cbn [String.length]; lia).
    rewrite Z.pow_add_r by (unfold len; lia). lia.
Qed.

Lemma val_app a b : val (a ++ b) = val a * 10 ^ len b + val b.
Proof. unfold val at 1. rewrite val_acc_app. apply val_acc_shift. Qed.

Lemma val_cons c s : val (String c s) = digit_val c * 10 ^ len s + val s.
Proof. change (String c s) with (String c "" ++ s). rewrite val_app. unfold val at 1. cbn. lia. Qed.

Lemma val_zeros n : val (repeat "0" n) = 0.
Proof.
  induction n as [|n IH]; [reflexivity|].
  cbn [repeat]. rewrite val_cons, IH. reflexivity.
Qed.

Lemma len_repeat c n : len (repeat c n) = Z.of_nat n.
Proof. unfold len. now rewrite length_repeat. Qed.

Lemma len_nonneg s : 0 <= len s.
Proof. unfold len. lia. Qed.

(** What [digits_fuel] computes, with enough fuel. *)
Lemma digits_fuel_spec fuel : forall z acc,
  0 <= z < 2 ^ Z.of_nat fuel ->
  all is_digit acc = true ->
  let ds := digits_fuel fuel z acc in
  all is_digit ds = true /\
  val ds = z * 10 ^ len acc + val acc /\
  (0 < z -> exists c r, ds = String c r /\ Ascii.eqb c "0" = false).
Proof.
  induction fuel as [|fuel IH]; intros z acc Hz Hacc ds; subst ds.
  - cbn in Hz. assert (z = 0) by lia. subst z. cbn [digits_fuel].
    split; [exact Hacc|]. split; [rewrite Z.mul_0_l; reflexivity|intros; lia].
  - cbn [digits_fuel].
    assert (Hmod : 0 <= z mod 10 < 10) by (apply Z.mod_pos_bound; lia).
    destruct (Z.ltb_spec z 10) as [Hlt|Hge].
    + rewrite Z.mod_small by lia. split; [|split].
      * cbn [all]. rewrite is_digit_char by lia. exact Hacc.
      * rewrite val_cons, digit_val_char by lia. reflexivity.
      * intros Hpos. eexists _, _. split; [reflexivity|].
        unfold digit_char. apply Ascii.eqb_neq. intros E.
        apply (f_equal code) in E. rewrite code_chr in E by lia.
        change (code "0") with 48 in E. lia.
    + assert (Hdiv : 0 <= z / 10 < 2 ^ Z.of_nat fuel).
      { split; [apply Z.div_pos; lia|].
        apply Z.div_lt_upper_bound; [lia|].
        rewrite Nat2Z.inj_succ, Z.pow_succ_r in Hz by lia. lia. }
      specialize (IH (z / 10) (String (digit_char (z mod 10)) acc) Hdiv).
      cbn [all] in IH. rewrite is_digit_char in IH by lia.
      specialize (IH Hacc). cbn zeta in IH.
      destruct IH as [IH1 [IH2 IH3]].
      split; [exact IH1|]. split.
      * rewrite IH2, val_cons, digit_val_char by lia.
        replace (len (String (digit_char (z mod 10)) acc)) with (len acc + 1)
          by (unfold len; cbn [String.length]; lia).
        rewrite Z.pow_add_r by (pose proof (len_nonneg acc); lia).
        pose proof (Z.div_mod z 10). lia.
      * intros _. apply IH3. apply Z.div_str_pos. lia.
Qed.

Lemma digits_spec z :
  0 <= z ->
  all is_digit (digits z) = true /\
  val (digits z) = z /\
  (0 < z -> exists c r, digits z = String c r /\ Ascii.eqb c "0" = false).
Proof.
  intros Hz. unfold digits.
  assert (Hb : 0 <= z < 2 ^ Z.of_nat (S (Z.to_nat (Z.log2 z)))).
  { split; [exact Hz|].
    rewrite Nat2Z.inj_succ, Z2Nat.id by apply Z.log2_nonneg.
    destruct (Z.eq_dec z 0) as [->|Hnz]; [cbn; lia|].
    apply Z.log2_spec. lia. }
  pose proof (digits_fuel_spec _ z "" Hb eq_refl) as H. cbn zeta in H.
  destruct H as [H1 [H2 H3]]. split; [exact H1|]. split; [|exact H3].
  rewrite H2. unfold val, len. cbn. lia.
Qed.

End StrFacts.

Module NumFacts.

Import Str StrFacts Num.

Lemma same_eq x y : same x y = true -> x = y.
Proof.
  destruct x, y; cbn; try discriminate; try reflexivity; intros H.
  - apply Bool.eqb_prop in H. now subst.
  - apply Bool.eqb_prop in H. now subst.
  - apply andb_true_iff in H. destruct H as [H He].
    apply andb_true_iff in H. destruct H as [Hs Hm].
    apply Bool.eqb_prop in Hs. apply Pos.eqb_eq in Hm. apply Z.eqb_eq in He.
    now subst.
Qed.

Lemma round64_sign neg n d : round64 neg n d = with_sign neg (round64 false n d).
Proof.
  unfold round64.
  destruct (n <=? 0); [reflexivity|]. cbn zeta.
  repeat match goal with |- context [if ?b then _ else _] => destruct b end;
    reflexivity.
Qed.

Lemma ofDecimal_sign neg M P : ofDecimal neg M P = with_sign neg (ofDecimal false M P).
Proof.
  unfold ofDecimal.
  repeat match goal with |- context [if ?b then _ else _] => destruct b end;
    try reflexivity; apply round64_sign.
Qed.

Lemma ofDecimal_shift neg s p :
  0 < s -> 0 <= p <= 400 ->
  ofDecimal neg (s * 10 ^ p) 0 = ofDecimal neg s p.
Proof.
  intros Hs Hp. unfold ofDecimal.
  assert (0 < 10 ^ p) by (apply Z.pow_pos_nonneg; lia).
  assert (0 < s * 10 ^ p) by lia.
  destruct (Z.leb_spec (s * 10 ^ p) 0); [lia|].
  destruct (Z.leb_spec s 0); [lia|].
  destruct (Z.ltb_spec 400 0); [lia|].
  destruct (Z.ltb_spec 400 p); [lia|].
  pose proof (Z.log2_nonneg (s * 10 ^ p)). pose proof (Z.log2_nonneg s).
  destruct (Z.ltb_spec 0 (- (401 + Z.log2 (s * 10 ^ p)))); [lia|].
  destruct (Z.ltb_spec p (- (401 + Z.log2 s))); [lia|].
  destruct (Z.leb_spec 0 0); [|lia].
  destruct (Z.leb_spec 0 p); [|lia].
  now rewrite Z.pow_0_r, Z.mul_1_r.
Qed.

Lemma shortest_represents fuel : forall k x num den n sp,
  shortest fuel k x num den n = Some sp -> represents x sp = true.
Proof.
  induction fuel as [|fuel IH]; intros k x num den n sp; cbn [shortest];
    [discriminate|].
  cbn zeta.
  set (clo := normalise 400 _ (n - k)).
  set (chi := normalise 400 (_ + 1) (n - k)).
  destruct (represents x clo) eqn:Hlo, (represents x chi) eqn:Hhi.
  - destruct (_ ?= _); [destruct (Z.even _)| |]; intros [= <-]; assumption.
  - intros [= <-]; assumption.
  - intros [= <-]; assumption.
  - apply IH.
Qed.



Lemma pow2_pos k : 0 < pow2 k.
Proof. unfold pow2. apply Z.pow_pos_nonneg; lia. Qed.

Lemma ge_pow2_scale n d j K :
  0 <= K -> 0 <= j + K ->
  ge_pow2 n d j <-> d * 2 ^ (j + K) <= n * 2 ^ K.
Proof.
  intros HK HjK. unfold ge_pow2, pow2.
  destruct (Z.le_gt_cases 0 j) as [Hj|Hj].
  - rewrite (Z.max_r 0 j), (Z.max_l 0 (- j)) by lia.
    rewrite Z.pow_0_r, Z.mul_1_r, Z.pow_add_r, Z.mul_assoc by lia.
    assert (0 < 2 ^ K) by (apply Z.pow_pos_nonneg; lia).
    split; intros H0.
    + apply Z.mul_le_mono_nonneg_r; lia.
    + apply Z.mul_le_mono_pos_r in H0; lia.
  - rewrite (Z.max_l 0 j), (Z.max_r 0 (- j)) by lia.
    rewrite Z.pow_0_r, Z.mul_1_r.
    replace K with (- j + (j + K)) at 2 by lia.
    rewrite (Z.pow_add_r 2 (- j) (j + K)), Z.mul_assoc by lia.
    assert (0 < 2 ^ (j + K)) by (apply Z.pow_pos_nonneg; lia).
    split; intros H0.
    + apply Z.mul_le_mono_nonneg_r; lia.
    + apply Z.mul_le_mono_pos_r in H0; lia.
Qed.

Lemma ge_pow2_mono n d j j' :
  0 < d -> j <= j' -> ge_pow2 n d j' -> ge_pow2 n d j.
Proof.
  intros Hd Hjj H.
  set (K := Z.abs j + Z.abs j').
  apply (ge_pow2_scale n d j K); [lia|lia|].
  apply (ge_pow2_scale n d j' K) in H; [|lia|lia].
  apply Z.le_trans with (d * 2 ^ (j' + K)); [|exact H].
  apply Z.mul_le_mono_nonneg_l; [lia|].
  apply Z.pow_le_mono_r; lia.
Qed.

Lemma ge_pow2_below n d :
  0 < n -> 0 < d -> ge_pow2 n d (Z.log2 n - Z.log2 d - 1).
Proof.
  intros Hn Hd.
  pose proof (Z.log2_spec n Hn) as [Hn1 _].
  pose proof (Z.log2_spec d Hd) as [_ Hd2].
  pose proof (Z.log2_nonneg n). pose proof (Z.log2_nonneg d).
  set (ln := Z.log2 n) in *. set (ld := Z.log2 d) in *.
  apply (ge_pow2_scale n d _ (ld + 1)); [lia|lia|].
  replace (ln - ld - 1 + (ld + 1)) with ln by lia.
  apply Z.le_trans with (2 ^ ln * 2 ^ (ld + 1)).
  - rewrite Z.mul_comm. apply Z.mul_le_mono_nonneg_l; [apply Z.pow_nonneg; lia|lia].
  - apply Z.mul_le_mono_nonneg_r; [apply Z.pow_nonneg; lia|exact Hn1].
Qed.

Lemma ge_pow2_above n d :
  0 < n -> 0 < d -> ~ ge_pow2 n d (Z.log2 n - Z.log2 d + 1).
Proof.
  intros Hn Hd H.
  pose proof (Z.log2_spec n Hn) as [_ Hn2].
  pose proof (Z.log2_spec d Hd) as [Hd1 _].
  pose proof (Z.log2_nonneg n). pose proof (Z.log2_nonneg d).
  set (ln := Z.log2 n) in *. set (ld := Z.log2 d) in *.
  apply (ge_pow2_scale n d _ ld) in H; [|lia|lia].
  replace (ln - ld + 1 + ld) with (Z.succ ln) in H by lia.
  assert (0 < 2 ^ ld) by (apply Z.pow_pos_nonneg; lia).
  assert (2 ^ ld * 2 ^ Z.succ ln <= d * 2 ^ Z.succ ln).
  { apply Z.mul_le_mono_nonneg_r; [apply Z.pow_nonneg; lia|exact Hd1]. }
  assert (n * 2 ^ ld < 2 ^ Z.succ ln * 2 ^ ld).
  { apply Z.mul_lt_mono_pos_r; assumption. }
  lia.
Qed.

(** [ilog2Q n d] is the [L] with [2^L <= n/d < 2^(L+1)]. *)
Lemma ilog2Q_unique n d L :
  0 < n -> 0 < d ->
  ge_pow2 n d L -> ~ ge_pow2 n d (L + 1) -> ilog2Q n d = L.
Proof.
  intros Hn Hd H1 H2. unfold ilog2Q.
  set (a := Z.log2 n - Z.log2 d).
  pose proof (ge_pow2_below n d Hn Hd) as Hlo. fold a in Hlo.
  pose proof (ge_pow2_above n d Hn Hd) as Hhi. fold a in Hhi.
  destruct (Z.leb_spec (d * pow2 a) (n * pow2 (- a))) as [Ha|Ha].
  - destruct (Z.lt_trichotomy L a) as [Hlt|[Heq|Hgt]]; [|lia|].
    + exfalso. apply H2. apply (ge_pow2_mono n d (L + 1) a); [lia|lia|exact Ha].
    + exfalso. apply Hhi. apply (ge_pow2_mono n d (a + 1) L); [lia|lia|exact H1].
  - destruct (Z.lt_trichotomy L (a - 1)) as [Hlt|[Heq|Hgt]]; [|lia|].
    + exfalso. apply H2. apply (ge_pow2_mono n d (L + 1) (a - 1)); [lia|lia|exact Hlo].
    + exfalso. apply (Z.lt_irrefl (d * pow2 a)).
      apply Z.le_lt_trans with (n * pow2 (- a)); [|exact Ha].
      apply (ge_pow2_mono n d a L); [lia|lia|exact H1].
Qed.

Lemma roundRNE_exact m d : 0 < d -> roundRNE (m * d) d = m.
Proof.
  intros Hd. unfold roundRNE.
  rewrite Z.mod_mul, Z.div_mul by lia.
  destruct (Z.compare_spec (2 * 0) d); lia.
Qed.

Lemma canonical_bounds neg m e :
  canonical (Fin neg m e) = true ->
  Zpos m < 2 ^ 53 /\ -1074 <= e <= 971 /\
  Z.max (-1074) (Z.log2 (Zpos m) + e - 52) = e.
Proof.
  intros Hc. cbn [canonical] in Hc.
  apply andb_true_iff in Hc. destruct Hc as [Hc Hnorm].
  apply andb_true_iff in Hc. destruct Hc as [Hc Hemax].
  apply andb_true_iff in Hc. destruct Hc as [Hm53 Hemin].
  apply Z.ltb_lt in Hm53. apply Z.leb_le in Hemin. apply Z.leb_le in Hemax.
  split; [exact Hm53|]. split; [lia|].
  assert (Hlt : Z.log2 (Zpos m) < 53) by (apply Z.log2_lt_pow2; lia).
  apply orb_true_iff in Hnorm. destruct Hnorm as [Hn|Hn].
  - apply Z.leb_le in Hn. apply Z.log2_le_pow2 in Hn; lia.
  - apply Z.eqb_eq in Hn. lia.
Qed.

(** The scaled value [n / d = m * 2^e] of a canonical double rounds to
    it. *)
Lemma round64_exact neg n d m e :
  canonical (Fin neg m e) = true ->
  0 < d ->
  n * pow2 (- e) = Zpos m * (d * pow2 e) ->
  round64 neg n d = Fin neg m e.
Proof.
  intros Hc Hd Heq.
  destruct (canonical_bounds _ _ _ Hc) as [Hm53 [He HE]].
  pose proof (pow2_pos e) as Hpe. pose proof (pow2_pos (- e)) as Hpne.
  assert (Hn : 0 < n) by nia.
  set (lm := Z.log2 (Zpos m)) in *.
  pose proof (Z.log2_spec (Zpos m) ltac:(lia)) as [Hlm1 Hlm2]. fold lm in Hlm1, Hlm2.
  pose proof (Z.log2_nonneg (Zpos m)) as Hlm0. fold lm in Hlm0.
  assert (Hlog : ilog2Q n d = lm + e).
  { apply ilog2Q_unique; [exact Hn|exact Hd| |].
    - destruct (Z.le_gt_cases 0 e) as [He0|He0].
      + apply (ge_pow2_scale n d (lm + e) 0); [lia|lia|].
        unfold pow2 in Heq.
        rewrite (Z.max_l 0 (- e)), (Z.max_r 0 e), Z.pow_0_r, Z.mul_1_r in Heq by lia.
        rewrite Z.add_0_r, Z.pow_0_r, Z.mul_1_r, Z.pow_add_r, Heq by lia.
        assert (0 < 2 ^ e) by (apply Z.pow_pos_nonneg; lia).
        assert (0 <= (Zpos m - 2 ^ lm) * (d * 2 ^ e))
          by (apply Z.mul_nonneg_nonneg; lia).
        lia.
      + apply (ge_pow2_scale n d (lm + e) (- e)); [lia|lia|].
        unfold pow2 in Heq.
        rewrite (Z.max_r 0 (- e)), (Z.max_l 0 e), Z.pow_0_r, Z.mul_1_r in Heq by lia.
        replace (lm + e + - e) with lm by lia. rewrite Heq.
        assert (0 <= (Zpos m - 2 ^ lm) * d)
          by (apply Z.mul_nonneg_nonneg; lia).
        lia.
    - intros H.
      destruct (Z.le_gt_cases 0 e) as [He0|He0].
      + apply (ge_pow2_scale n d _ 0) in H; [|lia|lia].
        unfold pow2 in Heq.
        rewrite (Z.max_l 0 (- e)), (Z.max_r 0 e), Z.pow_0_r, Z.mul_1_r in Heq by lia.
        rewrite Z.add_0_r, Z.pow_0_r, Z.mul_1_r in H.
        replace (lm + e + 1) with (Z.succ lm + e) in H by lia.
        rewrite Z.pow_add_r, Heq in H by lia.
        assert (0 < 2 ^ e) by (apply Z.pow_pos_nonneg; lia).
        assert (0 < (2 ^ Z.succ lm - Zpos m) * (d * 2 ^ e))
          by (apply Z.mul_pos_pos; lia).
        lia.
      + apply (ge_pow2_scale n d _ (- e)) in H; [|lia|lia].
        unfold pow2 in Heq.
        rewrite (Z.max_r 0 (- e)), (Z.max_l 0 e), Z.pow_0_r, Z.mul_1_r in Heq by lia.
        replace (lm + e + 1 + - e) with (Z.succ lm) in H by lia.
        rewrite Heq in H.
        assert (0 < (2 ^ Z.succ lm - Zpos m) * d)
          by (apply Z.mul_pos_pos; lia).
        lia. }
  unfold round64.
  destruct (Z.leb_spec n 0); [lia|]. cbn zeta.
  rewrite Hlog, HE, Heq, roundRNE_exact by lia.
  destruct (Z.eqb_spec (Zpos m) (2 ^ 53)); [lia|].
  destruct (Z.leb_spec (Zpos m) 0); [lia|].
  destruct (Z.ltb_spec 971 e); [lia|].
  reflexivity.
Qed.

(** The exact expansion of a canonical double rounds to it. *)
Lemma ofDecimal_exact neg m e :
  canonical (Fin neg m e) = true ->
  0 < fst (exact_decimal m e) /\
  ofDecimal neg (fst (exact_decimal m e)) (snd (exact_decimal m e)) = Fin neg m e.
Proof.
  intros Hc.
  destruct (canonical_bounds _ _ _ Hc) as [Hm53 [He _]].
  unfold exact_decimal.
  destruct (Z.leb_spec 0 e) as [He0|He0]; cbn [fst snd].
  - assert (Hp : 0 < 2 ^ e) by (apply Z.pow_pos_nonneg; lia).
    assert (HM : 0 < Zpos m * 2 ^ e) by lia.
    split; [exact HM|].
    unfold ofDecimal.
    pose proof (Z.log2_nonneg (Zpos m * 2 ^ e)).
    destruct (Z.leb_spec (Zpos m * 2 ^ e) 0); [lia|].
    destruct (Z.ltb_spec 400 0); [lia|].
    destruct (Z.ltb_spec 0 (- (401 + Z.log2 (Zpos m * 2 ^ e)))); [lia|].
    destruct (Z.leb_spec 0 0); [|lia].
    apply round64_exact; [exact Hc|lia|].
    unfold pow2. rewrite (Z.max_l 0 (- e)), (Z.max_r 0 e) by lia.
    rewrite !Z.pow_0_r. lia.
  - set (k := - e).
    assert (Hk : 0 < k) by (unfold k; lia).
    assert (H5 : 0 < 5 ^ k) by (apply Z.pow_pos_nonneg; lia).
    assert (H2 : 0 < 2 ^ k) by (apply Z.pow_pos_nonneg; lia).
    assert (H25 : 2 ^ k <= 5 ^ k) by (apply Z.pow_le_mono_l; lia).
    assert (HM : 0 < Zpos m * 5 ^ k) by lia.
    split; [exact HM|].
    assert (Hlog : k <= Z.log2 (Zpos m * 5 ^ k)).
    { apply Z.log2_le_pow2; [exact HM|]. nia. }
    unfold ofDecimal.
    destruct (Z.leb_spec (Zpos m * 5 ^ k) 0); [lia|].
    destruct (Z.ltb_spec 400 e); [lia|].
    destruct (Z.ltb_spec e (- (401 + Z.log2 (Zpos m * 5 ^ k)))); [lia|].
    destruct (Z.leb_spec 0 e); [lia|].
    apply round64_exact; [exact Hc|apply Z.pow_pos_nonneg; lia|].
    unfold pow2. rewrite (Z.max_r 0 (- e)), (Z.max_l 0 e) by lia.
    fold k. rewrite Z.pow_0_r.
    replace 10 with (5 * 2) by reflexivity. rewrite Z.pow_mul_l. lia.
Qed.

Lemma canonical_sign neg neg' m e :
  canonical (Fin neg m e) = canonical (Fin neg' m e).
Proof. reflexivity. Qed.

(** The decimal Number::toString prints reads back as the double. *)
Lemma decimal_of_sound neg0 m e :
  canonical (Fin neg0 m e) = true ->
  0 < fst (decimal_of m e) /\
  forall neg,
    ofDecimal neg (fst (decimal_of m e)) (snd (decimal_of m e)) = Fin neg m e.
Proof.
  intros Hc. unfold decimal_of.
  destruct (shortest 17 1 (Fin false m e) (numer m e) (denom e)
              (exp10 (numer m e) (denom e))) as [[s p]|] eqn:Hs.
  - apply shortest_represents in Hs.
    unfold represents in Hs. cbn [fst snd] in *.
    apply andb_true_iff in Hs. destruct Hs as [Hpos H].
    apply Z.ltb_lt in Hpos. apply same_eq in H.
    split; [exact Hpos|]. intros neg.
    rewrite ofDecimal_sign, H. reflexivity.
  - split; [apply (ofDecimal_exact neg0), Hc|].
    intros neg. apply ofDecimal_exact.
    rewrite (canonical_sign neg neg0). exact Hc.
Qed.

End NumFacts.

Module JSONNumberFacts.

Import Str StrFacts Num NumFacts JSON.

Lemma number_stop_no_digit rest : number_stop rest = true -> no_digit_ahead rest = true.
Proof.
  destruct rest as [|c rest]; [reflexivity|]. cbn.
  intros H. apply andb_true_iff in H. destruct H as [H _].
  apply andb_true_iff in H. now destruct H.
Qed.

Lemma lex_frac_stop rest : number_stop rest = true -> lex_frac rest = Some ("", rest).
Proof.
  destruct rest as [|c rest]; [reflexivity|]. cbn.
  intros H. apply andb_true_iff in H. destruct H as [H _].
  apply andb_true_iff in H. destruct H as [_ H].
  apply negb_true_iff in H. now rewrite H.
Qed.

Lemma lex_exp_stop rest : number_stop rest = true -> lex_exp rest = Some (0, rest).
Proof.
  destruct rest as [|c rest]; [reflexivity|]. cbn.
  intros H. apply andb_true_iff in H. destruct H as [_ H].
  apply negb_true_iff in H. now rewrite H.
Qed.

Lemma is_digit_not_zero_lex c r :
  is_digit c = true -> Ascii.eqb c "0" = false ->
  lex_int (String c r) = Some (span_digits (String c r)).
Proof. intros Hd Hz. unfold lex_int. now rewrite Hz, Hd. Qed.

(** The exponent part as [layout] writes it. *)
Lemma parse_exponent_layout x rest :
  0 < Z.abs x -> no_digit_ahead rest = true ->
  parse_exponent (((if x <? 0 then "-" else "+") ++ digits (Z.abs x)) ++ rest)
  = Some (x, rest).
Proof.
  intros Hx Hrest.
  destruct (digits_spec (Z.abs x)) as [Hall [Hval Hhead]]; [lia|].
  destruct (Hhead Hx) as [c [r [Hds _]]].
  unfold parse_exponent.
  destruct (Z.ltb_spec x 0); cbn [append]; rewrite span_digits_app by assumption;
    rewrite Hds at 1; rewrite Hval; f_equal; f_equal; lia.
Qed.

Lemma len_cons c s : len (String c s) = 1 + len s.
Proof. unfold len. cbn [String.length]. lia. Qed.

Lemma is_digit_not_exp c : is_digit c = true -> is_exp_mark c = false.
Proof.
  destruct c as [[] [] [] [] [] [] [] []]; cbn; intros H; try reflexivity;
    discriminate H.
Qed.

Lemma is_digit_not_minus c : is_digit c = true -> Ascii.eqb c "-" = false.
Proof.
  destruct c as [[] [] [] [] [] [] [] []]; cbn; intros H; try reflexivity;
    discriminate H.
Qed.

Lemma is_digit_not_ws c : is_digit c = true -> is_ws c = false.
Proof.
  destruct c as [[] [] [] [] [] [] [] []]; cbn; intros H; try reflexivity;
    discriminate H.
Qed.

(** What [layout] writes reads back as the decimal it was given. *)
Lemma parse_unsigned_layout neg s p rest :
  0 < s -> number_stop rest = true ->
  parse_unsigned neg (layout (digits s) (p + len (digits s)) ++ rest)
  = Some (ofDecimal neg s p, rest).
Proof.
  intros Hs Hstop.
  pose proof (number_stop_no_digit _ Hstop) as Hnd.
  destruct (digits_spec s) as [Hall [Hval Hhead]]; [lia|].
  destruct (Hhead Hs) as [c0 [r [Hds Hc0]]]. clear Hhead.
  rewrite Hds in *.
  set (k := len (String c0 r)). set (n := p + k).
  assert (Hk : k = 1 + len r) by apply len_cons.
  assert (Hr : 0 <= len r) by apply len_nonneg.
  assert (Hallr : is_digit c0 = true /\ all is_digit r = true).
  { cbn in Hall. now apply andb_true_iff in Hall. }
  destruct Hallr as [Hd0 Hallr].
  unfold layout. fold k.
  destruct ((k <=? n) && (n <=? 21)) eqn:HA.
  { (* digits and zeros *)
    apply andb_true_iff in HA. destruct HA as [H1 H2].
    apply Z.leb_le in H1. apply Z.leb_le in H2.
    unfold parse_unsigned. cbn [append].
    rewrite is_digit_not_zero_lex by assumption.
    change (String c0 ((r ++ ?z) ++ rest)) with (((String c0 r) ++ z) ++ rest).
    rewrite span_digits_app;
      [|rewrite all_app, Hall, all_repeat by reflexivity; reflexivity|exact Hnd].
    rewrite lex_frac_stop, lex_exp_stop by exact Hstop.
    rewrite StrFacts.app_nil_r, val_app, val_zeros, len_repeat, Hval.
    rewrite Z2Nat.id by lia.
    replace (0 - len "") with 0 by reflexivity.
    rewrite Z.add_0_r.
    replace (n - k) with p by (unfold n; lia).
    f_equal. f_equal. apply ofDecimal_shift; [exact Hs|unfold n in *; lia]. }
  destruct ((0 <? n) && (n <=? 21)) eqn:HB.
  { (* digits, point, digits *)
    apply andb_true_iff in HB. destruct HB as [H1 H2].
    apply Z.ltb_lt in H1. apply Z.leb_le in H2.
    assert (Hnk : n < k).
    { apply andb_false_iff in HA. destruct HA as [HA|HA].
      - apply Z.leb_gt in HA. exact HA.
      - apply Z.leb_gt in HA. lia. }
    unfold parse_unsigned.
    destruct (Z.to_nat n) as [|j] eqn:Hj; [lia|].
    assert (Hlen : len (drop (S j) (String c0 r)) = k - n).
    { unfold len at 1. rewrite length_drop. unfold k, len in *. lia. }
    assert (Htd : String c0 (take j r) ++ drop (S j) (String c0 r) = (String c0 r))
      by (apply (take_drop (S j) (String c0 r))).
    cbn [take append].
    rewrite is_digit_not_zero_lex by assumption.
    change (String c0 ((take j r ++ String "." ?t) ++ rest))
      with (String c0 (take j r ++ String "." t) ++ rest).
    change (String c0 (take j r ++ String "." ?t))
      with (String c0 (take j r) ++ String "." t).
    rewrite StrFacts.app_assoc.
    rewrite span_digits_app;
      [|cbn [all]; rewrite Hd0, all_take by exact Hallr; reflexivity|reflexivity].
    cbn [lex_frac append]. change (Ascii.eqb "." ".") with true. cbn iota.
    rewrite span_digits_app; [|apply all_drop; exact Hall|exact Hnd].
    destruct (drop (S j) (String c0 r)) as [|d1 dr] eqn:Hdrop.
    { exfalso. change (len "") with 0 in Hlen. lia. }
    rewrite lex_exp_stop by exact Hstop.
    cbn [append] in Htd. rewrite Htd, Hval, Hlen.
    f_equal. f_equal. f_equal. unfold n. lia. }
  destruct ((-6 <? n) && (n <=? 0)) eqn:HC.
  { (* zero, point, zeros, digits *)
    apply andb_true_iff in HC. destruct HC as [H1 H2].
    apply Z.ltb_lt in H1. apply Z.leb_le in H2.
    unfold parse_unsigned.
    cbn [append lex_int]. change (Ascii.eqb "0" "0") with true. cbn iota.
    cbn [lex_frac]. change (Ascii.eqb "." ".") with true. cbn iota.
    change (repeat "0" ?z ++ String c0 r) with (repeat "0" z ++ (String c0 r)).
    rewrite span_digits_app;
      [|rewrite all_app, Hall, all_repeat by reflexivity; reflexivity|exact Hnd].
    destruct (repeat "0" (Z.to_nat (- n)) ++ (String c0 r)) as [|z1 zr] eqn:Hz.
    { exfalso. apply (f_equal String.length) in Hz.
      rewrite length_app in Hz. cbn in Hz. lia. }
    rewrite lex_exp_stop by exact Hstop.
    rewrite <- Hz.
    change ("0" ++ repeat "0" (Z.to_nat (- n)) ++ (String c0 r))
      with (repeat "0" (S (Z.to_nat (- n))) ++ (String c0 r)).
    rewrite val_app, val_zeros, len_app, len_repeat, Hval.
    rewrite Z2Nat.id by lia.
    f_equal. f_equal. f_equal. unfold n, k in *. lia. }
  (* exponent notation *)
  assert (Hx : 0 < Z.abs (n - 1)).
  { apply andb_false_iff in HB. apply andb_false_iff in HC.
    destruct HB as [HB|HB]; [apply Z.ltb_ge in HB|apply Z.leb_gt in HB];
    (destruct HC as [HC|HC]; [apply Z.ltb_ge in HC|apply Z.leb_gt in HC]); lia. }
  unfold parse_unsigned.
  destruct r as [|c1 r'].
  - cbn [append].
    rewrite is_digit_not_zero_lex by assumption.
    change (String c0 (String "e" ?t)) with (String c0 "" ++ String "e" t).
    rewrite span_digits_app; [|cbn [all]; rewrite Hd0; reflexivity|reflexivity].
    cbn [lex_frac]. change (Ascii.eqb "e" ".") with false. cbn iota.
    cbn [lex_exp]. change (is_exp_mark "e") with true. cbn iota.
    rewrite parse_exponent_layout by assumption.
    rewrite StrFacts.app_nil_r, Hval.
    f_equal. f_equal. f_equal.
    change (len "") with 0 in *. unfold n. lia.
  - cbn [append].
    rewrite is_digit_not_zero_lex by assumption.
    change (String c0 (String "." ?t)) with (String c0 "" ++ String "." t).
    rewrite span_digits_app; [|cbn [all]; rewrite Hd0; reflexivity|reflexivity].
    cbn [lex_frac]. change (Ascii.eqb "." ".") with true. cbn iota.
    change (String c1 ((r' ++ String "e" ?t) ++ rest))
      with ((String c1 r' ++ String "e" t) ++ rest).
    rewrite StrFacts.app_assoc.
    rewrite span_digits_app; [|exact Hallr|reflexivity].
    cbn [lex_exp append]. change (is_exp_mark "e") with true. cbn iota.
    rewrite parse_exponent_layout by assumption.
    cbn [append]. rewrite Hval.
    f_equal. f_equal. f_equal. unfold n. lia.
Qed.

(** [layout] starts with a digit. *)
Lemma layout_head c0 r n :
  is_digit c0 = true ->
  exists c t, layout (String c0 r) n = String c t /\ is_digit c = true.
Proof.
  intros Hd. unfold layout.
  destruct ((len (String c0 r) <=? n) && (n <=? 21)).
  { eexists _, _. split; [reflexivity|exact Hd]. }
  destruct ((0 <? n) && (n <=? 21)) eqn:HB.
  { apply andb_true_iff in HB. destruct HB as [H1 _]. apply Z.ltb_lt in H1.
    destruct (Z.to_nat n) as [|j] eqn:Hj; [lia|].
    eexists _, _. split; [reflexivity|exact Hd]. }
  destruct ((-6 <? n) && (n <=? 0)).
  { eexists _, _. split; [reflexivity|reflexivity]. }
  destruct r; eexists _, _; (split; [reflexivity|exact Hd]).
Qed.

Lemma print_decimal_head s p :
  0 < s -> exists c t, print_decimal (s, p) = String c t /\ is_digit c = true.
Proof.
  intros Hs. unfold print_decimal. cbn [fst snd].
  destruct (digits_spec s) as [Hall [_ Hhead]]; [lia|].
  destruct (Hhead Hs) as [c0 [r [Hds _]]]. rewrite Hds in *.
  apply layout_head. cbn in Hall. now apply andb_true_iff in Hall.
Qed.

(** A number JSON can hold reads back from its text as itself. *)
Lemma parse_number_toString x rest :
  Spec.numSafe x -> number_stop rest = true ->
  parse_number (Num.toString x ++ rest) = Some (x, rest).
Proof.
  intros Hx Hstop. destruct x as [| |[]|neg m e]; try contradiction.
  - cbn [Num.toString append parse_number].
    change (Ascii.eqb "0" "-") with false. cbn iota.
    unfold parse_unsigned. cbn [lex_int]. change (Ascii.eqb "0" "0") with true.
    cbn iota. rewrite lex_frac_stop, lex_exp_stop by exact Hstop.
    reflexivity.
  - cbn [Spec.numSafe] in Hx. cbn [Num.toString].
    destruct (decimal_of_sound _ _ _ Hx) as [Hs Hof].
    destruct (decimal_of m e) as [s p]. cbn [fst snd] in *.
    destruct (print_decimal_head s p Hs) as [c [t [Hpd Hc]]].
    destruct neg.
    + cbn [append parse_number]. change (Ascii.eqb "-" "-") with true. cbn iota.
      unfold print_decimal. cbn [fst snd].
      rewrite parse_unsigned_layout by assumption. now rewrite Hof.
    + cbn [append]. rewrite Hpd. cbn [append parse_number].
      rewrite is_digit_not_minus by exact Hc.
      change (String c (t ++ rest)) with (String c t ++ rest).
      rewrite <- Hpd. unfold print_decimal. cbn [fst snd].
      rewrite parse_unsigned_layout by assumption. now rewrite Hof.
Qed.

(** The text of such a number starts with a digit or a minus sign. *)
Lemma toString_head x :
  Spec.numSafe x ->
  exists c t, Num.toString x = String c t /\
              (is_digit c = true \/ c = "-"%char).
Proof.
  intros Hx. destruct x as [| |[]|neg m e]; try contradiction.
  - eexists _, _. split; [reflexivity|left; reflexivity].
  - cbn [Spec.numSafe] in Hx. cbn [Num.toString].
    destruct (decimal_of_sound _ _ _ Hx) as [Hs _].
    destruct (decimal_of m e) as [s p]. cbn [fst snd] in *.
    destruct (print_decimal_head s p Hs) as [c [t [Hpd Hc]]].
    destruct neg.
    + eexists _, _. split; [reflexivity|right; reflexivity].
    + rewrite Hpd. eexists _, _. split; [reflexivity|left; exact Hc].
Qed.

End JSONNumberFacts.

Module JSONFacts.

Import Str StrFacts JS JSON JSONNumberFacts Spec.

(** Induction on values, with the elements of an array and the property
    values of an object as premises. *)
Lemma value_ind (P : value -> Prop) :
  P JUndefined -> P JNull -> (forall b, P (JBool b)) ->
  (forall x, P (JNum x)) -> (forall s, P (JStr s)) ->
  (forall l, Forall P l -> P (JArr l)) ->
  (forall o, Forall (fun kv => P (snd kv)) o -> P (JObj o)) ->
  forall v, P v.
Proof.
  intros Hu Hn Hb Hx Hs Ha Ho.
  fix IH 1. intros [| |b|x|s|l|o].
  - exact Hu.
  - exact Hn.
  - apply Hb.
  - apply Hx.
  - apply Hs.
  - apply Ha. induction l as [|v l IHl]; constructor; [apply IH|exact IHl].
  - apply Ho. induction o as [|[k v] o IHo]; constructor; [apply IH|exact IHo].
Qed.

(** ** Strings *)

Lemma lex_quote_char c t us r :
  lex_string t = Some (us, r) ->
  lex_string (quote_char c ++ t) = Some (inl c :: us, r).
Proof.
  intros H.
  destruct c as [[] [] [] [] [] [] [] []];
    vm_compute (quote_char _); cbn [append];
    (unfold lex_string; fold lex_string).
  all: repeat (match goal with
       | |- context [Str.code ?a =? ?k] =>
           let b := eval vm_compute in (Str.code a =? k) in
           change (Str.code a =? k) with b
       | |- context [Str.code ?a <? ?k] =>
           let b := eval vm_compute in (Str.code a <? k) in
           change (Str.code a <? k) with b
       end; cbn iota).
  all: try (rewrite H; reflexivity).
  all: try (vm_compute (simple_escape _); cbn iota; rewrite H; reflexivity).
  all: vm_compute (hex4 _ _ _ _); cbn iota; rewrite H; reflexivity.
Qed.

Lemma lex_quote_body s rest :
  lex_string (quote_body s ++ String dquote rest)
  = Some (map inl (list_ascii_of_string s), rest).
Proof.
  induction s as [|c s IH]; [reflexivity|].
  cbn [quote_body list_ascii_of_string map].
  rewrite StrFacts.app_assoc. apply lex_quote_char, IH.
Qed.

Lemma decode_inl l : decode (map inl l) = string_of_list_ascii l.
Proof. induction l as [|c l IH]; cbn; [reflexivity|]. now rewrite IH. Qed.

Lemma parse_string_quote s rest :
  parse_string (quote_body s ++ String dquote rest) = Some (s, rest).
Proof.
  unfold parse_string. rewrite lex_quote_body, decode_inl.
  now rewrite string_of_list_ascii_of_string.
Qed.

(** ** White space *)

Lemma skip_ws_app ws s : all is_ws ws = true -> skip_ws (ws ++ s) = skip_ws s.
Proof.
  induction ws as [|c ws IH]; cbn; [reflexivity|].
  intros H. apply andb_true_iff in H. destruct H as [Hc H].
  rewrite Hc. apply IH, H.
Qed.

Lemma skip_ws_head c s : is_ws c = false -> skip_ws (String c s) = String c s.
Proof. intros H. cbn. now rewrite H. Qed.

Lemma all_ws_indent d : all is_ws (nl ++ indent d) = true.
Proof. cbn. apply all_repeat. reflexivity. Qed.

Lemma parse_value_ws fuel ws s :
  all is_ws ws = true -> parse_value fuel (ws ++ s) = parse_value fuel s.
Proof.
  intros H. destruct fuel; [reflexivity|].
  cbn [parse_value]. now rewrite skip_ws_app.
Qed.

Lemma parse_members_ws fuel ws s :
  all is_ws ws = true -> parse_members fuel (ws ++ s) = parse_members fuel s.
Proof.
  intros H. destruct fuel; [reflexivity|].
  cbn [parse_members]. now rewrite skip_ws_app.
Qed.

(** ** Serialization, unfolded *)

Lemma serialize_arr d l :
  serialize d (JArr l) = Some (wrap "[" "]" d (map (element_text (S d)) l)).
Proof.
  reflexivity.
Qed.

Lemma serialize_obj d o :
  serialize d (JObj o) = Some (wrap "{" "}" d (member_texts (S d) o)).
Proof.
  cbn [serialize]. f_equal. f_equal.
  induction o as [|[k x] o IH]; [reflexivity|].
  cbn [member_texts]. destruct (serialize (S d) x); [f_equal|]; exact IH.
Qed.

Lemma serialize_safe d v : jsonSafe v -> exists t, serialize d v = Some t.
Proof.
  intros H. destruct H; eexists; reflexivity.
Qed.

Lemma value_head_digit c :
  is_digit c = true \/ c = "-"%char ->
  is_ws c = false /\ Ascii.eqb c "]" = false /\
  (Str.code c =? 110) = false /\ (Str.code c =? 116) = false /\
  (Str.code c =? 102) = false /\ (Str.code c =? 34) = false /\
  (Str.code c =? 91) = false /\ (Str.code c =? 123) = false.
Proof.
  intros [H| ->]; [|vm_compute; repeat split].
  destruct c as [[] [] [] [] [] [] [] []]; try discriminate H;
    vm_compute; repeat split.
Qed.

(** The text of a value starts with a code unit that is neither white
    space nor a closing bracket. *)
Lemma serialize_head d v t :
  jsonSafe v -> serialize d v = Some t ->
  exists c t', t = String c t' /\ is_ws c = false /\ Ascii.eqb c "]" = false.
Proof.
  intros H. destruct H as [|b|x Hx|s|l Hl|o Ho1 Ho2].
  - intros [= <-]. eexists _, _. repeat split.
  - intros [= <-]. destruct b; eexists _, _; repeat split.
  - cbn [serialize]. destruct x as [| |[]|neg m e]; try contradiction;
      cbn [Num.isFinite]; intros [= <-].
    + eexists _, _. repeat split.
    + destruct (toString_head (Num.Fin neg m e) Hx) as [c [t' [Ht Hc]]].
      cbn [Num.toString] in Ht. rewrite Ht. eexists _, _. split; [reflexivity|].
      destruct (value_head_digit c Hc) as [H1 [H2 _]]. now split.
  - intros [= <-]. eexists _, _. repeat split.
  - rewrite serialize_arr. intros [= <-]. unfold wrap.
    destruct (map _ l); eexists _, _; repeat split.
  - rewrite serialize_obj. intros [= <-]. unfold wrap.
    destruct (member_texts _ o); eexists _, _; repeat split.
Qed.

Lemma join_cons sep x y l :
  join sep (x :: y :: l) = x ++ sep ++ join sep (y :: l).
Proof. reflexivity. Qed.

Lemma length_nl_indent d c :
  String.length (nl ++ indent d ++ String c "") = (2 + 2 * d)%nat.
Proof.
  cbn [nl append String.length]. rewrite length_app. unfold indent.
  rewrite length_repeat. cbn [String.length]. lia.
Qed.

Lemma skip_ws_closing d c rest :
  is_ws c = false ->
  skip_ws (nl ++ indent d ++ String c rest) = String c rest.
Proof.
  intros H. rewrite <- StrFacts.app_assoc, skip_ws_app by apply all_ws_indent.
  apply skip_ws_head, H.
Qed.

Lemma parse_elements_texts d : forall l,
  Forall (fun x => jsonSafe x /\ Parses x) l -> l <> [] ->
  forall fuel ws rest,
    all is_ws ws = true ->
    (String.length (join ("," ++ nl ++ indent (S d)) (map (element_text (S d)) l)
                    ++ nl ++ indent d ++ "]") <= fuel)%nat ->
    parse_elements fuel
      (ws ++ join ("," ++ nl ++ indent (S d)) (map (element_text (S d)) l)
          ++ nl ++ indent d ++ String "]" rest)
    = Some (l, rest).
Proof.
  induction l as [|x l IH]; intros Hall Hne fuel ws rest Hws Hfuel;
    [contradiction|].
  inversion Hall as [|? ? [Hsafe HP] Hall']; subst.
  destruct (serialize_safe (S d) x Hsafe) as [tx Htx].
  cbn [map] in *. unfold element_text at 1 in Hfuel. unfold element_text at 1.
  rewrite Htx in *.
  destruct fuel as [|f].
  { exfalso. rewrite length_app, length_nl_indent in Hfuel. lia. }
  cbn [parse_elements]. rewrite parse_value_ws by exact Hws.
  destruct l as [|y l'].
  - cbn [map join] in *.
    rewrite length_app, length_nl_indent in Hfuel.
    rewrite (HP (S d) tx _ f Htx); [|reflexivity|lia].
    rewrite skip_ws_closing by reflexivity. reflexivity.
  - cbn [map] in *. rewrite join_cons in *.
    rewrite !StrFacts.app_assoc. rewrite !StrFacts.app_assoc in Hfuel.
    rewrite !length_app in Hfuel.
    change (String.length ",") with 1%nat in Hfuel.
    change (String.length nl) with 1%nat in Hfuel.
    rewrite (HP (S d) tx _ f Htx); [|reflexivity|lia].
    change (skip_ws ("," ++ ?X)) with (skip_ws (String "," X)).
    rewrite skip_ws_head by reflexivity. cbv beta iota.
    specialize (IH Hall' ltac:(discriminate) f (nl ++ indent (S d)) rest
                  (all_ws_indent (S d))).
    rewrite StrFacts.app_assoc in IH.
    rewrite IH; [reflexivity|].
    cbn [map]. rewrite !length_app.
    change (String.length nl) with 1%nat. lia.
Qed.

Lemma member_shape k tx after :
  (quote k ++ ": " ++ tx) ++ after
  = String dquote (quote_body k ++ String dquote (String ":" (" " ++ tx ++ after))).
Proof.
  unfold quote. cbn [append]. now rewrite !StrFacts.app_assoc.
Qed.

Lemma parse_members_texts d : forall o,
  Forall (fun kv => jsonSafe (snd kv) /\ Parses (snd kv)) o -> o <> [] ->
  forall fuel ws rest,
    all is_ws ws = true ->
    (String.length (join ("," ++ nl ++ indent (S d)) (member_texts (S d) o)
                    ++ nl ++ indent d ++ "}") <= fuel)%nat ->
    parse_members fuel
      (ws ++ join ("," ++ nl ++ indent (S d)) (member_texts (S d) o)
          ++ nl ++ indent d ++ String "}" rest)
    = Some (o, rest).
Proof.
  induction o as [|[k x] o IH]; intros Hall Hne fuel ws rest Hws Hfuel;
    [contradiction|].
  inversion Hall as [|? ? [Hsafe HP] Hall']; subst. cbn [snd] in *.
  destruct (serialize_safe (S d) x Hsafe) as [tx Htx].
  cbn [member_texts] in *. rewrite Htx in *.
  assert (Hm : (String.length tx < String.length (quote k ++ ": " ++ tx))%nat).
  { rewrite !length_app. unfold quote. cbn [String.length]. lia. }
  destruct fuel as [|f].
  { exfalso. rewrite length_app, length_nl_indent in Hfuel. lia. }
  rewrite parse_members_ws by exact Hws.
  destruct o as [|[k' y] o'].
  - cbn [member_texts join] in *.
    rewrite length_app, length_nl_indent in Hfuel.
    rewrite member_shape.
    cbn [parse_members]. rewrite skip_ws_head by reflexivity.
    change (Str.code dquote =? 34) with true. cbv beta iota.
    rewrite parse_string_quote.
    rewrite skip_ws_head by reflexivity. cbv beta iota.
    rewrite parse_value_ws by reflexivity.
    rewrite (HP (S d) tx _ f Htx); [|reflexivity|lia].
    rewrite skip_ws_closing by reflexivity. reflexivity.
  - assert (Hall2 := Hall'). inversion Hall2 as [|? ? [Hsafey _] _]; subst.
    cbn [snd] in Hsafey.
    destruct (serialize_safe (S d) y Hsafey) as [ty Hty].
    specialize (IH Hall' ltac:(discriminate) f (nl ++ indent (S d)) rest
                  (all_ws_indent (S d))).
    cbn [member_texts] in *. rewrite Hty in *.
    rewrite join_cons in *.
    rewrite !length_app in Hfuel.
    change (String.length ",") with 1%nat in Hfuel.
    change (String.length nl) with 1%nat in Hfuel.
    rewrite (StrFacts.app_assoc (quote k ++ ": " ++ tx)), member_shape.
    cbn [parse_members]. rewrite skip_ws_head by reflexivity.
    change (Str.code dquote =? 34) with true. cbv beta iota.
    rewrite parse_string_quote.
    rewrite skip_ws_head by reflexivity. cbv beta iota.
    rewrite parse_value_ws by reflexivity.
    rewrite !StrFacts.app_assoc.
    rewrite (HP (S d) tx _ f Htx); [|reflexivity|rewrite !length_app in Hm; lia].
    change (skip_ws ("," ++ ?X)) with (skip_ws (String "," X)).
    rewrite skip_ws_head by reflexivity. cbv beta iota.
    rewrite StrFacts.app_assoc in IH.
    rewrite IH; [reflexivity|].
    rewrite !length_app. change (String.length nl) with 1%nat.
    rewrite !length_app in Hm. lia.
Qed.

Lemma join_head sep c t l :
  exists t', join sep (String c t :: l) = String c t'.
Proof. destruct l; eexists; reflexivity. Qed.

(** Every value JSON represents is read back from its text. *)
Theorem parse_serialize v : jsonSafe v -> Parses v.
Proof.
  induction v as [| |b|x|s|l IHl|o IHo] using value_ind;
    intros Hsafe d t rest fuel Ht Hstop Hfuel.
  - inversion Hsafe.
  - injection Ht as <-. do 4 (destruct fuel as [|fuel]; [cbn in Hfuel; lia|]).
    reflexivity.
  - injection Ht as <-.
    destruct b; do 4 (destruct fuel as [|fuel]; [cbn in Hfuel; lia|]);
      reflexivity.
  - inversion Hsafe as [| |? Hx| | |]; subst.
    assert (Hfin : Num.isFinite x = true)
      by (destruct x as [| |[]|]; try contradiction; reflexivity).
    cbn [serialize] in Ht. rewrite Hfin in Ht. injection Ht as <-.
    destruct (toString_head x Hx) as [c [t' [Hs Hc]]].
    destruct (value_head_digit c Hc) as [H1 [H2 [H3 [H4 [H5 [H6 [H7 H8]]]]]]].
    destruct fuel as [|f]; [rewrite Hs in Hfuel; cbn in Hfuel; lia|].
    assert (Hns : number_stop rest = true).
    { destruct rest as [|r0 rest]; [reflexivity|]. cbn in Hstop |- *.
      apply orb_true_iff in Hstop. destruct Hstop as [E|E].
      - apply Ascii.eqb_eq in E. subst r0. reflexivity.
      - destruct r0 as [[] [] [] [] [] [] [] []]; try discriminate E; reflexivity. }
    pose proof (parse_number_toString x rest Hx Hns) as Hp.
    rewrite Hs in *. cbn [append] in *. cbn [parse_value].
    rewrite skip_ws_head by exact H1.
    rewrite H3, H4, H5, H6, H7, H8, Hp. reflexivity.
  - injection Ht as <-. unfold quote in *. cbn [append].
    destruct fuel as [|f]; [cbn in Hfuel; lia|].
    cbn [parse_value]. rewrite skip_ws_head by reflexivity.
    change (Str.code dquote =? 110) with false.
    change (Str.code dquote =? 116) with false.
    change (Str.code dquote =? 102) with false.
    change (Str.code dquote =? 34) with true. cbv beta iota.
    rewrite StrFacts.app_assoc. cbn [append].
    rewrite parse_string_quote. reflexivity.
  - inversion Hsafe as [| | | |? Hl|]; subst.
    rewrite serialize_arr in Ht. injection Ht as <-.
    assert (Hboth : Forall (fun x => jsonSafe x /\ Parses x) l).
    { clear -IHl Hl. induction l; constructor; inversion IHl; inversion Hl; subst; auto. }
    destruct l as [|x l].
    + do 2 (destruct fuel as [|fuel]; [cbn in Hfuel; lia|]). reflexivity.
    + unfold wrap in *. cbn [map] in *.
      inversion Hboth as [|? ? [Hsx HPx] _]; subst.
      destruct (serialize_safe (S d) x Hsx) as [tx Htx].
      destruct (serialize_head _ _ _ Hsx Htx) as [c [t' [-> [Hc1 Hc2]]]].
      assert (Het : element_text (S d) x = String c t')
        by (unfold element_text; now rewrite Htx).
      destruct fuel as [|f]; [cbn in Hfuel; lia|].
      pose proof (parse_elements_texts d (x :: l) Hboth ltac:(discriminate)
                    f (nl ++ indent (S d)) rest (all_ws_indent (S d))) as Hel.
      cbn [map] in Hel.
      destruct (join_head ("," ++ nl ++ indent (S d)) c t'
                  (map (element_text (S d)) l)) as [t'' Hj].
      rewrite <- Het in Hj.
      remember (join ("," ++ nl ++ indent (S d))
                  (element_text (S d) x :: map (element_text (S d)) l)) as J.
      replace (("[" ++ nl ++ indent (S d) ++ J ++ nl ++ indent d ++ "]") ++ rest)
        with (String "[" ((nl ++ indent (S d)) ++ J ++ nl ++ indent d ++ String "]" rest))
        by (cbn [append]; rewrite !StrFacts.app_assoc; reflexivity).
      cbn [parse_value]. rewrite skip_ws_head by reflexivity.
      change (Str.code "[" =? 110) with false.
      change (Str.code "[" =? 116) with false.
      change (Str.code "[" =? 102) with false.
      change (Str.code "[" =? 34) with false.
      change (Str.code "[" =? 91) with true. cbv beta iota.
      rewrite skip_ws_app by apply all_ws_indent.
      rewrite Hj at 1. cbn [append]. rewrite skip_ws_head by exact Hc1.
      cbn [head_is]. rewrite Hc2.
      rewrite Hel; [reflexivity|].
      rewrite !length_app in Hfuel. rewrite !length_app.
      cbn [String.length] in Hfuel |- *. lia.
  - inversion Hsafe as [| | | | |? Hcanon Ho]; subst.
    rewrite serialize_obj in Ht. injection Ht as <-.
    assert (Hboth : Forall (fun kv => jsonSafe (snd kv) /\ Parses (snd kv)) o).
    { clear -IHo Ho. induction o; constructor; inversion IHo; inversion Ho; subst; auto. }
    destruct o as [|[k x] o].
    + do 2 (destruct fuel as [|fuel]; [cbn in Hfuel; lia|]). reflexivity.
    + unfold wrap in *.
      inversion Hboth as [|? ? [Hsx HPx] _]; subst. cbn [snd] in *.
      destruct (serialize_safe (S d) x Hsx) as [tx Htx].
      pose proof (parse_members_texts d ((k, x) :: o) Hboth ltac:(discriminate)) as Hel.
      cbn [member_texts] in *. rewrite Htx in *.
      destruct fuel as [|f]; [cbn in Hfuel; lia|].
      specialize (Hel f (nl ++ indent (S d)) rest (all_ws_indent (S d))).
      destruct (join_head ("," ++ nl ++ indent (S d)) dquote
                  ((quote_body k ++ String dquote "") ++ ": " ++ tx)
                  (member_texts (S d) o)) as [t'' Hj].
      change (String dquote ((quote_body k ++ String dquote "") ++ ": " ++ tx))
        with (quote k ++ ": " ++ tx) in Hj.
      remember (join ("," ++ nl ++ indent (S d))
                  ((quote k ++ ": " ++ tx) :: member_texts (S d) o)) as J.
      replace (("{" ++ nl ++ indent (S d) ++ J ++ nl ++ indent d ++ "}") ++ rest)
        with (String "{" ((nl ++ indent (S d)) ++ J ++ nl ++ indent d ++ String "}" rest))
        by (cbn [append]; rewrite !StrFacts.app_assoc; reflexivity).
      cbn [parse_value]. rewrite skip_ws_head by reflexivity.
      change (Str.code "{" =? 110) with false.
      change (Str.code "{" =? 116) with false.
      change (Str.code "{" =? 102) with false.
      change (Str.code "{" =? 34) with false.
      change (Str.code "{" =? 91) with false.
      change (Str.code "{" =? 123) with true. cbv beta iota.
      rewrite skip_ws_app by apply all_ws_indent.
      rewrite Hj at 1. cbn [append]. rewrite skip_ws_head by reflexivity.
      cbn [head_is]. change (Ascii.eqb dquote "}") with false. cbv beta iota.
      rewrite Hel; [rewrite Hcanon; reflexivity|].
      rewrite !length_app in Hfuel. rewrite !length_app.
      cbn [String.length] in Hfuel |- *. lia.
Qed.

End JSONFacts.

(* ===================================================================== *)
(** * The query history: bound, eviction, removal *)
(* ===================================================================== *)

Section History.

Import JS Store Spec.

Lemma queryHistory_addToHistory now iso queryData st :
  queryHistory (addToHistory now iso queryData st) =
  firstn 100 (newEntry now iso queryData :: queryHistory st).
Proof. reflexivity. Qed.

Lemma addCalls_cons c calls st :
  addCalls (c :: calls) st =
  addCalls calls (let '(now, iso, queryData) := c in
                  addToHistory now iso queryData st).
Proof. reflexivity. Qed.

(** The history after the calls is the hundred newest of everything ever
    added, provided it was within the bound before. *)
Lemma addCalls_history calls : forall st,
  (List.length (queryHistory st) <= 100)%nat ->
  queryHistory (addCalls calls st) =
  firstn 100 (rev (map entryOf calls) ++ queryHistory st).
Proof.
  induction calls as [|[[now iso] queryData] calls IH]; intros st Hlen.
  - change (queryHistory st = firstn 100 (queryHistory st)).
    symmetry. apply firstn_all2. exact Hlen.
  - rewrite addCalls_cons, IH.
    + rewrite queryHistory_addToHistory.
      change (map entryOf ((now, iso, queryData) :: calls))
        with (newEntry now iso queryData :: map entryOf calls).
      change (rev (?x :: ?l)) with (rev l ++ [x])%list.
      rewrite <- app_assoc.
      change ([?x] ++ ?l)%list with (x :: l).
      apply ListFacts.firstn_app_firstn.
    + rewrite queryHistory_addToHistory, length_firstn. lia.
Qed.

(** C1. For every starting history and every sequence of [addToHistory]
    calls (a non-empty one, or any one from a history within the bound,
    such as the initial empty history), the history holds at most 100
    entries, it is the first 100 of the new entries, newest first,
    followed by the old ones, and what was evicted is the tail of that
    list: the oldest entries. *)
Theorem C1_history_bounded (st : State) (calls : list call) :
  calls <> [] \/ (List.length (queryHistory st) <= 100)%nat ->
  let all := (rev (map entryOf calls) ++ queryHistory st)%list in
  let kept := queryHistory (addCalls calls st) in
  (List.length kept <= 100)%nat /\
  kept = firstn 100 all /\
  all = (kept ++ skipn 100 all)%list.
Proof.
  intros H all kept.
  assert (Hkept : kept = firstn 100 all).
  { subst all kept. destruct calls as [|[[now iso] queryData] calls].
    - destruct H as [H|H]; [congruence|]. apply addCalls_history, H.
    - rewrite addCalls_cons, addCalls_history
        by (rewrite queryHistory_addToHistory, length_firstn; lia).
      rewrite queryHistory_addToHistory.
      change (map entryOf ((now, iso, queryData) :: calls))
        with (newEntry now iso queryData :: map entryOf calls).
      change (rev (?x :: ?l)) with (rev l ++ [x])%list.
      rewrite <- app_assoc.
      change ([?x] ++ ?l)%list with (x :: l).
      apply ListFacts.firstn_app_firstn. }
  split; [|split].
  - rewrite Hkept, length_firstn. lia.
  - exact Hkept.
  - rewrite Hkept. symmetry. apply firstn_skipn.
Qed.

(** A history of 150 entries, as an import can leave it, and one call. *)
Lemma C1_history_bounded_witness :
  let st := set_queryHistory (repeat JNull 150) initial in
  let calls := [(1700000000000, "2023-11-14T22:13:20.000Z",
                 JObj [("type", JStr "user"); ("query", JStr "top customers")])] in
  let all := (rev (map entryOf calls) ++ queryHistory st)%list in
  let kept := queryHistory (addCalls calls st) in
  (List.length kept <= 100)%nat /\
  kept = firstn 100 all /\
  all = (kept ++ skipn 100 all)%list.
Proof.
  apply (C1_history_bounded
           (set_queryHistory (repeat JNull 150) initial)
           [(1700000000000, "2023-11-14T22:13:20.000Z",
             JObj [("type", JStr "user"); ("query", JStr "top customers")])]).
  left. discriminate.
Defined.




End History.

(* ===================================================================== *)
(** * The current result and the current error *)
(* ===================================================================== *)

Section ResultAndError.

Import JS Store Spec.

(** C2, as stated, fails: [setCurrentResult(null)] leaves both the
    result and the error null, so not exactly one of them is non-null
    after every call. *)
Lemma C2_counterexample :
  ~ exactlyOne (setCurrentResult JNull initial).
Proof. unfold exactlyOne. cbn. discriminate. Qed.

(** C2, amended. For every store state and every argument,
    [setCurrentResult] stores the argument as the result and clears the
    error, [setQueryError] stores it as the error and clears the result;
    after either call at most one of the two is non-null, and exactly
    one if and only if the argument is not [null]. *)
Theorem C2_result_error_exclusive (st : State) (v : value) :
  currentResult (setCurrentResult v st) = v /\
  queryError (setCurrentResult v st) = JNull /\
  queryError (setQueryError v st) = v /\
  currentResult (setQueryError v st) = JNull /\
  atMostOne (setCurrentResult v st) /\
  atMostOne (setQueryError v st) /\
  (exactlyOne (setCurrentResult v st) <-> nonNull v = true) /\
  (exactlyOne (setQueryError v st) <-> nonNull v = true).
Proof.
  unfold atMostOne, exactlyOne, setCurrentResult, setQueryError.
  cbn [currentResult queryError].
  change (nonNull JNull) with false.
  rewrite andb_false_r, xorb_false_r.
  repeat split; auto.
Qed.

End ResultAndError.

(* ===================================================================== *)
(** * Column classification and chart projections *)
(* ===================================================================== *)

Section Classification.

Import JS QueryResult Spec Examples.

(** C3, as stated, fails: the first-row value ["5"] of the column
    [total] coerces to the number 5, yet the column is not classified
    as numeric (and it is classified as categorical). *)
Lemma C3_counterexample :
  let col := {| name := "total"; type := "string" |} in
  specNumeric textResult col = true /\
  isNumericColumn textResult col = false /\
  isCategoricalColumn textResult col = true.
Proof. vm_compute. repeat split. Qed.

(** C3, amended. For every result payload, a column is in
    [numericColumns] exactly when it is a column of the payload whose
    declared type is ['number'] or whose first-row value has the
    JavaScript type [number] (no coercion is attempted), and in
    [categoricalColumns] exactly when its declared type is ['string'] or
    its first-row value has the type [string]; both lists keep the
    display order; without [columns] both are empty. The two tests are
    independent of each other. *)
Theorem C3_column_classification (r : Result) :
  (forall col,
     In col (numericColumns r) <->
     (exists cols, columns r = Some cols /\ In col cols) /\
     (type col = "number" \/ typeof (firstRowValue r (name col)) = "number")) /\
  (forall col,
     In col (categoricalColumns r) <->
     (exists cols, columns r = Some cols /\ In col cols) /\
     (type col = "string" \/ typeof (firstRowValue r (name col)) = "string")) /\
  (forall cols, columns r = Some cols ->
     subsequence (numericColumns r) cols /\
     subsequence (categoricalColumns r) cols) /\
  (columns r = None -> numericColumns r = [] /\ categoricalColumns r = []).
Proof.
  unfold numericColumns, categoricalColumns.
  split; [|split; [|split]].
  - intros col. destruct (columns r) as [cols|].
    + rewrite filter_In. unfold isNumericColumn.
      rewrite orb_true_iff, !String.eqb_eq.
      split.
      * intros [Hin H]. split; [exists cols; auto|exact H].
      * intros [[cols' [Heq Hin]] H]. injection Heq as <-. auto.
    + split; [intros []|]. intros [[cols [Heq _]] _]. discriminate.
  - intros col. destruct (columns r) as [cols|].
    + rewrite filter_In. unfold isCategoricalColumn.
      rewrite orb_true_iff, !String.eqb_eq.
      split.
      * intros [Hin H]. split; [exists cols; auto|exact H].
      * intros [[cols' [Heq Hin]] H]. injection Heq as <-. auto.
    + split; [intros []|]. intros [[cols [Heq _]] _]. discriminate.
  - intros cols ->. split; apply ListFacts.filter_subsequence.
  - intros ->. split; reflexivity.
Qed.




End Classification.

(* ===================================================================== *)
(** * The HTTP error adapter *)
(* ===================================================================== *)

Section ErrorAdapter.

Import JS Api Spec.

(** C8, as stated, fails: a 401 response whose body supplies a message
    is reported with the fixed message of the status; the message of the
    server is not used. (Nor does the fixed message always win: a 400
    response with the same body is reported with the message of the
    server.) *)
Lemma C8_counterexample :
  let data := JObj [("message", JStr "Token expired")] in
  let error status :=
    {| response := Some (status, data);
       request := JObj [];
       message := JStr "Request failed" |} in
  responseError (error 401) = Error "Unauthorized access" /\
  specRequestError 401 data = Error "Token expired" /\
  responseError (error 401) <> specRequestError 401 data /\
  responseError (error 400) = Error "Token expired" /\
  responseError (error 400) <> Error (fixedMessage 400).
Proof. cbn. repeat split; discriminate. Qed.

Ltac status_cases status :=
  repeat match goal with
         | H : context [status =? ?k] |- _ =>
             destruct (Z.eqb_spec status k); [subst status|]
         | |- context [status =? ?k] =>
             destruct (Z.eqb_spec status k); [subst status|]
         end.

(** C8, amended. A response with status 401, 403, 404, 429 or 500 is
    reported with the fixed message of the status, whatever the body
    says. A response with status 400 or any other status, whose body is
    neither [null] nor [undefined], is reported with the [message] field
    of the body when that field is truthy, and with the fixed message of
    the status otherwise; when the body is [null] or [undefined], the
    read of its [message] field raises a TypeError instead. Without a
    response, a request that was sent is reported as a network error,
    and anything else with the message of the error (a fixed text when
    it has none). *)
Theorem C8_error_mapping :
  (forall status data req msg,
     fixedOnly status = true ->
     responseError {| response := Some (status, data); request := req; message := msg |}
     = Error (fixedMessage status)) /\
  (forall status data req msg,
     fixedOnly status = false -> nullish data = false ->
     responseError {| response := Some (status, data); request := req; message := msg |}
     = Error (if truthy (get_opt data "message")
              then ToString (get_opt data "message")
              else fixedMessage status)) /\
  (forall status data req msg,
     fixedOnly status = false -> nullish data = true ->
     responseError {| response := Some (status, data); request := req; message := msg |}
     = cannot_read data "message") /\
  (forall req msg,
     truthy req = true ->
     responseError {| response := None; request := req; message := msg |}
     = Error "Network error. Please check your connection.") /\
  (forall req msg,
     truthy req = false ->
     responseError {| response := None; request := req; message := msg |}
     = Error (if truthy msg then ToString msg
              else "An unexpected error occurred")).
Proof.
  split; [|split; [|split; [|split]]].
  - intros status data req msg H.
    unfold responseError, fixedOnly, fixedMessage in *. cbn [response].
    status_cases status; try reflexivity; discriminate H.
  - intros status data req msg H Hdata.
    assert (Hthrow : forall fallback,
              throwMessage data fallback =
              Error (if truthy (get_opt data "message")
                     then ToString (get_opt data "message") else fallback)).
    { intros fallback. unfold throwMessage, read, get_opt, or.
      destruct (get_prop data "message") as [m|] eqn:Hm.
      - destruct (truthy m); reflexivity.
      - destruct data; discriminate. }
    unfold responseError, fixedOnly, fixedMessage in *. cbn [response].
    status_cases status; try discriminate H; apply Hthrow.
  - intros status data req msg H Hdata.
    assert (Hthrow : forall fallback,
              throwMessage data fallback = cannot_read data "message")
      by (intros fallback; destruct data; try discriminate Hdata; reflexivity).
    unfold responseError, fixedOnly in *. cbn [response].
    status_cases status; try discriminate H; apply Hthrow.
  - intros req msg H. unfold responseError. cbn [response request].
    rewrite H. reflexivity.
  - intros req msg H. unfold responseError, or. cbn [response request message].
    rewrite H. destruct (truthy msg); reflexivity.
Qed.

End ErrorAdapter.

(* ===================================================================== *)
(** * Submission while a query is in flight *)
(* ===================================================================== *)

Section Submission.

Import JS Store ChatInterface Spec.

Lemma handleSubmit_processing t c sys :
  isProcessing (store sys) = true ->
  handleSubmit t c sys = (sys, [PreventDefault]).
Proof.
  intros H. unfold handleSubmit. rewrite H, orb_true_r. reflexivity.
Qed.

(** C9. In every state where [isProcessing] is true, a submission
    changes neither the store (no history entry is added) nor the
    component, makes no outbound call, and leaves nothing behind: the
    system goes on exactly as if the submission had not happened,
    whatever events follow. *)
Theorem C9_submit_while_processing (sys : System) (t c : Clock) :
  isProcessing (store sys) = true ->
  handleSubmit t c sys = (sys, [PreventDefault]) /\
  posts (snd (handleSubmit t c sys)) = [] /\
  queryHistory (store (fst (handleSubmit t c sys))) = queryHistory (store sys) /\
  awaiting (fst (handleSubmit t c sys)) = awaiting sys /\
  (forall evs,
     fst (run sys (Submitted t c :: evs)) = fst (run sys evs) /\
     posts (snd (run sys (Submitted t c :: evs))) = posts (snd (run sys evs))).
Proof.
  intros H. pose proof (handleSubmit_processing t c sys H) as E.
  rewrite E. cbn [fst snd]. repeat split.
  - cbn [run step]. rewrite E. destruct (run sys evs). reflexivity.
  - cbn [run step]. rewrite E. destruct (run sys evs). reflexivity.
Qed.

(** A second query typed and submitted while the first one is in
    flight. *)
Lemma C9_submit_while_processing_witness :
  let sys := {| inputValue := "orders by month";
                store := setProcessing true initial;
                awaiting := ["top customers"] |} in
  let t := {| now := 1700000000500; iso := "2023-11-14T22:13:20.500Z" |} in
  handleSubmit t t sys = (sys, [PreventDefault]) /\
  posts (snd (handleSubmit t t sys)) = [] /\
  queryHistory (store (fst (handleSubmit t t sys))) = queryHistory (store sys) /\
  awaiting (fst (handleSubmit t t sys)) = awaiting sys /\
  (forall evs,
     fst (run sys (Submitted t t :: evs)) = fst (run sys evs) /\
     posts (snd (run sys (Submitted t t :: evs))) = posts (snd (run sys evs))).
Proof.
  intros sys t. apply (C9_submit_while_processing sys t t). reflexivity.
Defined.

End Submission.

(* ===================================================================== *)
(** * Import of a history document *)
(* ===================================================================== *)

Section HistoryImport.

Import JS Store Spec.

(** C6. [importHistory] rejects with "Invalid file format" exactly when
    the document parses to a value that is not an array, with "Failed to
    parse file" exactly when it does not parse; in every rejection
    (these two, and "Failed to read file" when the file cannot be read)
    the store is unchanged; and when the document parses to an array the
    history becomes that array, whatever it held before. *)
Theorem C6_importHistory (text : string) (st : State) :
  (snd (importHistory (Some text) st) = Rejected (Error "Invalid file format")
   <-> exists v, JSON.parse text = Some v /\ isArray v = false) /\
  (snd (importHistory (Some text) st) = Rejected (Error "Failed to parse file")
   <-> JSON.parse text = None) /\
  (forall file e,
     snd (importHistory file st) = Rejected e -> fst (importHistory file st) = st) /\
  importHistory None st = (st, Rejected (Error "Failed to read file")) /\
  (forall l,
     JSON.parse text = Some (JArr l) ->
     importHistory (Some text) st = (set_queryHistory l st, Resolved (JArr l)) /\
     queryHistory (fst (importHistory (Some text) st)) = l).
Proof.
  unfold importHistory.
  split; [|split; [|split; [|split]]].
  - destruct (JSON.parse text) as [v|].
    + destruct (isArray v) eqn:Harr; cbn [snd].
      * split; [discriminate|]. intros [v' [Heq Hv']]. congruence.
      * split; [|reflexivity]. intros _. exists v. auto.
    + cbn [snd]. split; [discriminate|]. intros [v [Heq _]]. discriminate.
  - destruct (JSON.parse text) as [v|].
    + destruct (isArray v); cbn [snd]; split; discriminate.
    + cbn [snd]. split; reflexivity.
  - intros [text'|] e; [|reflexivity].
    destruct (JSON.parse text') as [v|]; [|reflexivity].
    destruct (isArray v); [discriminate|reflexivity].
  - reflexivity.
  - intros l ->. cbn. split; reflexivity.
Qed.

(** Three documents: an array, a number, and an array cut short. *)
Example importHistory_documents :
  queryHistory (fst (importHistory (Some "[1, [true, null]]") initial))
    = [JNum (Num.of_Z 1); JArr [JBool true; JNull]] /\
  snd (importHistory (Some "42") initial)
    = Rejected (Error "Invalid file format") /\
  snd (importHistory (Some "[1, [true, null]") initial)
    = Rejected (Error "Failed to parse file").
Proof. vm_compute. repeat split. Qed.

End HistoryImport.

(* ===================================================================== *)
(** * Export followed by import *)
(* ===================================================================== *)

Section RoundTrip.

Import JS Store Spec Examples.

(** C7, as stated, fails. A history that holds the number [Infinity]
    (the history an import of the document [[1e999]] leaves) comes back
    from an export and import holding [null]; an entry with a property
    whose value is [undefined] comes back without the property. *)
Lemma C7_counterexample :
  let st := fst (importHistory (Some "[1e999]") initial) in
  let st2 := addToHistory 1700000000000 "2023-11-14T22:13:20.000Z"
               (JObj [("type", JStr "user"); ("language", JUndefined)]) initial in
  queryHistory st = [JNum (Num.Inf false)] /\
  queryHistory (fst (exportThenImport "2023-11-14T22:13:20.000Z" st initial))
    = [JNull] /\
  queryHistory (fst (exportThenImport "2023-11-14T22:13:20.000Z" st initial))
    <> queryHistory st /\
  queryHistory (fst (exportThenImport "2023-11-14T22:13:20.000Z" st2 initial))
    <> queryHistory st2.
Proof.
  vm_compute. repeat split; discriminate.
Qed.

(** C7, amended. For every history whose entries are values JSON
    represents (no [undefined], no NaN, infinity or negative zero, every
    object in own-property order), the import of the document an export
    produces resolves with the same sequence and stores it as the
    history, whatever the importing store held. *)
Theorem C7_export_import_roundtrip (iso : string) (st st' : State) :
  Forall jsonSafe (queryHistory st) ->
  exportThenImport iso st st'
    = (set_queryHistory (queryHistory st) st', Resolved (JArr (queryHistory st))) /\
  queryHistory (fst (exportThenImport iso st st')) = queryHistory st.
Proof.
  intros Hsafe.
  assert (Hparse : forall t, JSON.stringify (JArr (queryHistory st)) = Some t ->
                             JSON.parse t = Some (JArr (queryHistory st))).
  { intros t Ht. unfold JSON.parse.
    pose proof (JSONFacts.parse_serialize (JArr (queryHistory st))
                  (safe_arr _ Hsafe) 0%nat t EmptyString (String.length t)
                  Ht eq_refl (Nat.le_refl _)) as Hp.
    rewrite StrFacts.app_nil_r in Hp. rewrite Hp. reflexivity. }
  unfold exportThenImport, exportHistory, importHistory. cbn [content].
  destruct (JSON.stringify (JArr (queryHistory st))) as [t|] eqn:Ht.
  - rewrite (Hparse t eq_refl). split; reflexivity.
  - unfold JSON.stringify in Ht. rewrite JSONFacts.serialize_arr in Ht.
    discriminate Ht.
Qed.

Lemma C7_export_import_roundtrip_witness :
  let st := set_queryHistory sampleHistory initial in
  exportThenImport "2023-11-15T08:00:00.000Z" st initial
    = (set_queryHistory (queryHistory st) initial, Resolved (JArr (queryHistory st))) /\
  queryHistory (fst (exportThenImport "2023-11-15T08:00:00.000Z" st initial))
    = queryHistory st.
Proof.
  apply (C7_export_import_roundtrip "2023-11-15T08:00:00.000Z"
           (set_queryHistory sampleHistory initial) initial).
  vm_compute.
  repeat (first [ apply Forall_nil | apply Forall_cons | apply safe_null
                | apply safe_bool | apply safe_str | apply safe_arr
                | apply safe_obj | apply safe_num | reflexivity ]).
Defined.

End RoundTrip.

(* ===================================================================== *)
(** * Cell formatting *)
(* ===================================================================== *)

Section CellFormat.

Import JS QueryResult Spec Examples.















End CellFormat.
